(** * AI Image Enhancer API ([main.py]): a shallow embedding and its contract

    The service is a thin HTTP facade over a hosted upscaling model.  Every
    endpoint validates its input, builds a payload, calls [replicate.run]
    and translates the result or the failure.  The embedding below follows
    [main.py] endpoint by endpoint:

    - Python exceptions are values of [exn]; a handler body is a computation
      in a state-and-exception monad [Py] whose state is the [World]
      (temporary files on disk, the remote model's state and a log of the
      calls made to it);
    - [replicate.run], [str()] of library objects, [pathlib] and [tempfile]
      are library code: they are interfaces ([Replicate], [Str], [Runtime])
      that the endpoints are parametrised by;
    - dict literals are association lists in source order. *)

From Stdlib Require Import ZArith Ascii.
From stdpp Require Import gmap strings pretty list sorting fin_maps.

Set Default Proof Using "Type*".
Set Warnings "-register-all".

Local Open Scope string_scope.
Local Open Scope list_scope.

(** ** Python values *)

Abbreviation bytes := (list Byte.byte).

(** What the endpoints put in a response body. *)
Inductive value : Type :=
  | VStr (s : string)
  | VInt (z : Z)
  | VNone
  | VList (l : list value)
  | VDict (d : list (string * value)).

Abbreviation dict := (list (string * value)).

Definition keys (d : dict) : list string := d.*1.

Fixpoint dict_get (k : string) (d : dict) : option value :=
  match d with
  | [] => None
  | (k', v) :: d' => if String.eqb k k' then Some v else dict_get k d'
  end.

(** [str(x)] *)
Class Str (A : Type) := str : A → string.
Global Hint Mode Str ! : typeclass_instances.

Global Instance str_string : Str string := λ s, s.

(** [value if value is not None else None] for an [Optional[str]] field. *)
Definition of_optional_str (o : option string) : value :=
  match o with
  | Some s => VStr s
  | None => VNone
  end.

(** ** Exceptions

    The handlers tell [HTTPException] from every other [Exception], and of
    the latter they only ever use [str(e)]. *)
Inductive exn : Type :=
  | HTTPException (status_code : Z) (detail : string)
  | Exception (message : string).

(** The error taxonomy of the API, by status code. *)
Inductive error_kind : Type :=
  | InvalidArgument
  | UpstreamFailure
  | NotImplemented.

Definition kind_of_status (status_code : Z) : option error_kind :=
  if (status_code =? 400)%Z then Some InvalidArgument
  else if (status_code =? 500)%Z then Some UpstreamFailure
  else if (status_code =? 501)%Z then Some NotImplemented
  else None.

Definition error_kind_of (e : exn) : option error_kind :=
  match e with
  | HTTPException status_code _ => kind_of_status status_code
  | Exception _ => None
  end.

(** ** Request and response models *)

Module ImageEnhanceRequest.
Record t (HttpUrl : Type) : Type := Build {
  image_url : HttpUrl;
  scale : option Z   (* Optional[int] = 2 *)
}.
Arguments Build {HttpUrl} _ _.
Arguments image_url {HttpUrl} _.
Arguments scale {HttpUrl} _.
End ImageEnhanceRequest.

Module ImageEnhanceResponse.
Record t : Type := Build {
  enhanced_image_url : string;
  original_image_url : string;
  scale : Z;
  status : string
}.

(** The body FastAPI sends for a [response_model]: one entry per field. *)
Definition model_dump (r : t) : dict :=
  [ ("enhanced_image_url", VStr (enhanced_image_url r));
    ("original_image_url", VStr (original_image_url r));
    ("scale", VInt (scale r));
    ("status", VStr (status r)) ].
End ImageEnhanceResponse.

Module UploadFile.
Record t : Type := Build {
  filename : option string;
  content_type : option string;
  content : bytes
}.
End UploadFile.

(** ** The remote model *)

(** An open file object: where it was opened and what it reads. *)
Record file_object : Type := FileObject {
  name : string;
  data : bytes
}.

Inductive image_input : Type :=
  | ImageUrl (url : string)
  | ImageFile (f : file_object).

(** The [input=] dict of [replicate.run]: [{"image": ..., "scale": ...}]. *)
Record input_data : Type := InputData {
  image : image_input;
  scale : Z
}.

Definition MODEL_NAME : string :=
  "nightmareai/real-esrgan:f121d640bd286e1fdc67f9799164c1d5be36ff74576ee11c803ae5b665dd46aa".

(** [replicate.run(model, input=...)]: it returns an output or raises, and
    the remote side may change state between calls. *)
Class Replicate (D Output : Type) :=
  run : D → string → input_data → (Output + exn) * D.

(** The parts of the Python runtime and of the web framework the handlers
    rely on without fixing them. *)
Class Runtime : Type := {
  (** [str(e)] of an [HTTPException] *)
  http_exception_str : Z → string → string;
  (** [Path(name).suffix] *)
  path_suffix : string → string;
  (** [str(e)] of the [TypeError] of [Path(None)] *)
  path_type_error : string;
  (** what [tempfile] does with the files present and the suffix asked
      for: the name it picks, or [str(e)] of the exception it raises (a
      suffix with a null byte, a name too long, a directory it cannot
      write to) *)
  temp_name : gmap string bytes → string → string + string;
  (** how writing [content] to the temporary file at a path and closing it
      goes: [None] when both succeed, else [str(e)] of the exception
      raised and what the file is left holding *)
  temp_write : gmap string bytes → string → bytes → option (string * bytes);
  (** [str(e)] of the [FileNotFoundError] for a path *)
  file_not_found : string → string
}.

Global Instance str_exn `{Runtime} : Str exn := λ e,
  match e with
  | HTTPException status_code detail => http_exception_str status_code detail
  | Exception message => message
  end.

(** ** The world and the monad of handler bodies *)

Record World (D : Type) : Type := MkWorld {
  fs : gmap string bytes;                (* files on disk *)
  backend : D;                           (* the remote model *)
  calls : list (string * input_data)     (* every [replicate.run] so far *)
}.
Arguments MkWorld {D} _ _ _.
Arguments fs {D} _.
Arguments backend {D} _.
Arguments calls {D} _.

Definition Py (D A : Type) : Type := World D → (A + exn) * World D.

Definition ret {D A} (a : A) : Py D A := λ w, (inl a, w).

Definition raise {D A} (e : exn) : Py D A := λ w, (inr e, w).

Definition bind {D A B} (m : Py D A) (k : A → Py D B) : Py D B := λ w,
  match m w with
  | (inl a, w') => k a w'
  | (inr e, w') => (inr e, w')
  end.

(** [try: m  except ... as e: handler e] *)
Definition try_except {D A} (m : Py D A) (handler : exn → Py D A) : Py D A := λ w,
  match m w with
  | (inl a, w') => (inl a, w')
  | (inr e, w') => handler e w'
  end.

Notation "'let!' x ':=' m 'in' k" := (bind m (λ x, k))
  (at level 10, x pattern, m at level 100, k at level 200).

(** [if cond: raise e] *)
Definition raise_if {D} (cond : bool) (e : exn) : Py D unit :=
  if cond then raise e else ret tt.

(** [for x in xs: acc = body acc x], the accumulator standing for the
    variables the body updates. *)
Fixpoint for_each {D A S} (xs : list A) (body : S → A → Py D S) (acc : S) : Py D S :=
  match xs with
  | [] => ret acc
  | x :: xs' => let! acc' := body acc x in for_each xs' body acc'
  end.

Fixpoint enumerate_from {A} (i : nat) (xs : list A) : list (nat * A) :=
  match xs with
  | [] => []
  | x :: xs' => (i, x) :: enumerate_from (S i) xs'
  end.

Definition enumerate {A} (xs : list A) : list (nat * A) := enumerate_from 0 xs.

(** [len(xs)] *)
Definition len {A} (xs : list A) : Z := Z.of_nat (length xs).

(** [scale in [2, 4, 8]] *)
Definition scale_in_allowed (scale : Z) : bool := bool_decide (scale ∈ [2; 4; 8]%Z).


(** ** The handlers *)

Section Handlers.
Context {D Output HttpUrl : Type}.
Context `{!Replicate D Output, !Str Output, !Str HttpUrl, !Runtime}.

Implicit Types (w : World D) (e : exn).

(** *** Library calls *)

(** [replicate.run(model, input=input)], with the call logged. *)
Definition replicate_run (model : string) (input : input_data) : Py D Output := λ w,
  let '(r, d') := run (backend w) model input in
  (r, MkWorld (fs w) d' (calls w ++ [(model, input)])).

(** [await file.read()] *)
Definition file_read (file : UploadFile.t) : Py D bytes :=
  ret (UploadFile.content file).

(** [Path(filename).suffix]; [Path(None)] raises a [TypeError]. *)
Definition Path_suffix (filename : option string) : Py D string :=
  match filename with
  | Some n => ret (path_suffix n)
  | None => raise (Exception path_type_error)
  end.

(** [tempfile.NamedTemporaryFile(delete=False, suffix=suffix)]: an empty
    file under a name of [tempfile]'s choosing, kept when it is closed; or
    the exception [tempfile] raises, no file being made. *)
Definition NamedTemporaryFile (suffix : string) : Py D string := λ w,
  match temp_name (fs w) suffix with
  | inl path => (inl path, MkWorld (<[path := []]> (fs w)) (backend w) (calls w))
  | inr message => (inr (Exception message), w)
  end.

(** [temp_file.write(content)] on the file just made, and the close at the
    end of the [with] block.  When either raises the file stays, opened
    with [delete=False], holding what got written. *)
Definition temp_file_write (path : string) (content : bytes) : Py D unit := λ w,
  match temp_write (fs w) path content with
  | None => (inl tt, MkWorld (<[path := content]> (fs w)) (backend w) (calls w))
  | Some (message, written) =>
      (inr (Exception message), MkWorld (<[path := written]> (fs w)) (backend w) (calls w))
  end.

(** [open(path, "rb")] *)
Definition open_rb (path : string) : Py D file_object := λ w,
  match fs w !! path with
  | Some content => (inl (FileObject path content), w)
  | None => (inr (Exception (file_not_found path)), w)
  end.

(** [os.path.exists(path)] *)
Definition os_path_exists (path : string) : Py D bool := λ w,
  (inl (bool_decide (is_Some (fs w !! path))), w).

(** [os.unlink(path)] *)
Definition os_unlink (path : string) : Py D unit := λ w,
  match fs w !! path with
  | Some _ => (inl tt, MkWorld (delete path (fs w)) (backend w) (calls w))
  | None => (inr (Exception (file_not_found path)), w)
  end.

(** [not s or not s.startswith(prefix)] for an [Optional[str]] *)
Definition missing_or_not_prefixed (prefix : string) (s : option string) : bool :=
  match s with
  | None => true
  | Some s => String.eqb s "" || negb (String.prefix prefix s)
  end.

(** *** POST /enhance-from-url *)

(** [if request.scale not in [2, 4, 8]: raise HTTPException(...)] on an
    [Optional[int]]: [None] is not in the list, and past the check the
    scale is one of the three integers. *)
Definition checked_scale (scale : option Z) : Py D Z :=
  match scale with
  | Some scale =>
      if scale_in_allowed scale then ret scale
      else raise (HTTPException 400 "Scale must be 2, 4, or 8")
  | None => raise (HTTPException 400 "Scale must be 2, 4, or 8")
  end.

Definition enhance_image_from_url (request : ImageEnhanceRequest.t HttpUrl)
  : Py D ImageEnhanceResponse.t :=
  try_except
    (let! scale := checked_scale (ImageEnhanceRequest.scale request) in
     let input_data :=
       {| image := ImageUrl (str (ImageEnhanceRequest.image_url request));
          scale := scale |} in
     let! output := replicate_run MODEL_NAME input_data in
     ret (ImageEnhanceResponse.Build
            (str output)
            (str (ImageEnhanceRequest.image_url request))
            scale
            "success"))
    (* except Exception as e *)
    (λ e, raise (HTTPException 500 ("Enhancement failed: " +:+ str e))).

(** *** POST /enhance-from-file *)

Definition enhance_image_from_file (file : UploadFile.t) (scale : Z) : Py D dict :=
  try_except
    (let! _ := raise_if (missing_or_not_prefixed "image/" (UploadFile.content_type file))
                 (HTTPException 400 "File must be an image") in
     let! _ := raise_if (negb (scale_in_allowed scale))
                 (HTTPException 400 "Scale must be 2, 4, or 8") in
     let! file_content := file_read file in
     let! suffix := Path_suffix (UploadFile.filename file) in
     let! temp_file_path := NamedTemporaryFile suffix in
     let! _ := temp_file_write temp_file_path file_content in
     try_except
       (let! f := open_rb temp_file_path in
        let input_data := {| image := ImageFile f; scale := scale |} in
        let! output := replicate_run MODEL_NAME input_data in
        let! _ := os_unlink temp_file_path in
        ret [ ("enhanced_image_url", VStr (str output));
              ("original_filename", of_optional_str (UploadFile.filename file));
              ("scale", VInt scale);
              ("status", VStr "success") ])
       (* except Exception as e *)
       (λ e,
          let! still_there := os_path_exists temp_file_path in
          let! _ := if still_there then os_unlink temp_file_path else ret tt in
          raise e))
    (λ e,
       match e with
       | HTTPException _ _ => raise e
       | Exception _ => raise (HTTPException 500 ("Enhancement failed: " +:+ str e))
       end).

(** *** POST /enhance-batch *)

Definition success_item (i : nat) (image_url : HttpUrl) (output : Output) : value :=
  VDict [ ("index", VInt (Z.of_nat i));
          ("original_url", VStr (str image_url));
          ("enhanced_url", VStr (str output));
          ("status", VStr "success") ].

Definition failed_item (i : nat) (image_url : HttpUrl) (e : exn) : value :=
  VDict [ ("index", VInt (Z.of_nat i));
          ("original_url", VStr (str image_url));
          ("error", VStr (str e));
          ("status", VStr "failed") ].

(** The body of the [for] loop; the accumulator is [(results, errors)]. *)
Definition batch_body (scale : Z) (acc : list value * list value) (item : nat * HttpUrl)
  : Py D (list value * list value) :=
  let '(results, errors) := acc in
  let '(i, image_url) := item in
  try_except
    (let input_data := {| image := ImageUrl (str image_url); scale := scale |} in
     let! output := replicate_run MODEL_NAME input_data in
     ret (results ++ [success_item i image_url output], errors))
    (* except Exception as e *)
    (λ e, ret (results, errors ++ [failed_item i image_url e])).

Definition enhance_batch (image_urls : list HttpUrl) (scale : Z) : Py D dict :=
  try_except
    (let! _ := raise_if (bool_decide (10 < len image_urls)%Z)
                 (HTTPException 400 "Batch size limited to 10 images") in
     let! _ := raise_if (negb (scale_in_allowed scale))
                 (HTTPException 400 "Scale must be 2, 4, or 8") in
     let! (results, errors) := for_each (enumerate image_urls) (batch_body scale) ([], []) in
     ret [ ("results", VList results);
           ("errors", VList errors);
           ("total_processed", VInt (len results));
           ("total_failed", VInt (len errors));
           ("scale", VInt scale) ])
    (λ e,
       match e with
       | HTTPException _ _ => raise e
       | Exception _ => raise (HTTPException 500 ("Batch enhancement failed: " +:+ str e))
       end).

End Handlers.

(** ** Vocabulary of the contract

    The outcome of each item of a batch is what the remote model answers to
    the item's call, the calls being made one after the other.  From the
    list of outcomes the two sequences of the response are read off. *)

Section Expected.
Context {D Output HttpUrl : Type}.
Context `{!Replicate D Output, !Str Output, !Str HttpUrl, !Runtime}.

Definition batch_inputs (image_urls : list HttpUrl) (scale : Z) : list input_data :=
  (λ image_url, {| image := ImageUrl (str image_url); scale := scale |}) <$> image_urls.

(** The answers of the model to the successive [inputs], from state [d]. *)
Fixpoint outcomes (d : D) (inputs : list input_data) : list (Output + exn) :=
  match inputs with
  | [] => []
  | input :: inputs' =>
      let '(outcome, d') := run d MODEL_NAME input in
      outcome :: outcomes d' inputs'
  end.

(** The state of the model after them. *)
Fixpoint backend_after (d : D) (inputs : list input_data) : D :=
  match inputs with
  | [] => d
  | input :: inputs' => backend_after (run d MODEL_NAME input).2 inputs'
  end.

(** The entries of the items that succeeded, the first item having index [i]. *)
Fixpoint successes_from (i : nat) (image_urls : list HttpUrl) (os : list (Output + exn))
  : list value :=
  match image_urls, os with
  | image_url :: image_urls', inl output :: os' =>
      success_item i image_url output :: successes_from (S i) image_urls' os'
  | _ :: image_urls', inr _ :: os' => successes_from (S i) image_urls' os'
  | _, _ => []
  end.

(** The entries of the items that failed. *)
Fixpoint failures_from (i : nat) (image_urls : list HttpUrl) (os : list (Output + exn))
  : list value :=
  match image_urls, os with
  | image_url :: image_urls', inr e :: os' =>
      failed_item i image_url e :: failures_from (S i) image_urls' os'
  | _ :: image_urls', inl _ :: os' => failures_from (S i) image_urls' os'
  | _, _ => []
  end.

(** What the outer handler of the file and batch endpoints makes of an
    exception: an [HTTPException] goes through, anything else becomes a
    status 500 whose detail is [prefix] followed by [str(e)]. *)
Definition surfaced (prefix : string) (e : exn) : exn :=
  match e with
  | HTTPException _ _ => e
  | Exception _ => HTTPException 500 (prefix +:+ str e)
  end.

(** The body of the response to an upload. *)
Definition file_response (output : Output) (filename : string) scale : dict :=
  [ ("enhanced_image_url", VStr (str output));
    ("original_filename", VStr filename);
    ("scale", VInt scale);
    ("status", VStr "success") ].

(** The body of the response to a batch. *)
Definition batch_response (results errors : list value) (scale : Z) : dict :=
  [ ("results", VList results);
    ("errors", VList errors);
    ("total_processed", VInt (len results));
    ("total_failed", VInt (len errors));
    ("scale", VInt scale) ].

End Expected.

(** The ["index"] of an entry of [results] or [errors]. *)
Definition item_index (item : value) : option Z :=
  match item with
  | VDict d =>
      match dict_get "index" d with
      | Some (VInt z) => Some z
      | _ => None
      end
  | _ => None
  end.

(** Every entry carries an index, and the indices go up. *)
Definition ascending_by_index (items : list value) : Prop :=
  Forall (λ item, is_Some (item_index item)) items ∧
  StronglySorted Z.lt (omap item_index items).

(** Lists of entries whose indices go up from a bound on. *)
Definition ascending_from (i : nat) (items : list value) : Prop :=
  Forall (λ item, is_Some (item_index item)) items ∧
  Forall (λ z, Z.of_nat i ≤ z)%Z (omap item_index items) ∧
  StronglySorted Z.lt (omap item_index items).

(** ** A scripted model and a reference runtime

    The deterministic stand-in the tests of the API use for the remote
    model: it answers the successive calls with the outcomes of a script,
    whatever the input, and fails once the script is over. *)

Module Stub.

Definition script : Type := list (string + exn).

#[export] Instance replicate_script : Replicate script string := λ d _ _,
  match d with
  | outcome :: d' => (outcome, d')
  | [] => (inr (Exception "connection refused"), [])
  end.

(** The name of a path as [pathlib] has it: the last of its components
    between ['/'] that is neither empty nor ["."]; [name] is the last such
    component read and [cur] the one being read. *)
Definition keep_component (cur name : string) : string :=
  if String.eqb cur "" || String.eqb cur "." then name else cur.

Fixpoint final_component (name cur : string) (s : string) : string :=
  match s with
  | EmptyString => keep_component cur name
  | String c s' =>
      if Ascii.eqb c "/"%char then final_component (keep_component cur name) "" s'
      else final_component name (cur +:+ String c "") s'
  end.

(** The last dotted part of a file name, the dot included, when there is
    one after the first character; [seen] is what was read so far and
    [suffix] the best candidate. *)
Fixpoint last_dotted (seen : bool) (suffix : string) (s : string) : string :=
  match s with
  | EmptyString => suffix
  | String c s' =>
      if Ascii.eqb c "."%char && seen then last_dotted true (String c s') s'
      else last_dotted true suffix s'
  end.

Definition suffix_of (path : string) : string :=
  let s := last_dotted false "" (final_component "" "" path) in
  if String.eqb s "." then "" else s.

Definition candidate (suffix : string) (n : nat) : string :=
  "/tmp/tmp" +:+ pretty n +:+ suffix.

(** The first candidate name from [n] on that is not taken; among
    [size files + 1] candidates one is free. *)
Fixpoint first_free_from (files : gmap string bytes) (suffix : string) (n tries : nat)
  : string :=
  match tries with
  | O => candidate suffix n
  | S tries' =>
      if bool_decide (files !! candidate suffix n = None) then candidate suffix n
      else first_free_from files suffix (S n) tries'
  end.

Definition first_free (files : gmap string bytes) (suffix : string) : string :=
  first_free_from files suffix 0 (size files).

Fixpoint has_null_byte (s : string) : bool :=
  match s with
  | EmptyString => false
  | String c s' => Ascii.eqb c Ascii.zero || has_null_byte s'
  end.

(** [tempfile] on a suffix: a null byte is refused, and so is a file name
    of more than 255 bytes; otherwise the first free candidate. *)
Definition make_temp_name (files : gmap string bytes) (suffix : string) : string + string :=
  if has_null_byte suffix then inr "embedded null byte"
  else
    let path := first_free files suffix in
    if (255 <? String.length path - String.length "/tmp/")%nat
    then inr ("[Errno 36] File name too long: '" +:+ path +:+ "'")
    else inl path.

(** A host whose disk takes every write. *)
#[export] Instance runtime : Runtime := {|
  http_exception_str status_code detail := pretty status_code +:+ ": " +:+ detail;
  path_suffix := suffix_of;
  path_type_error := "expected str, bytes or os.PathLike object, not NoneType";
  temp_name := make_temp_name;
  temp_write _ _ _ := None;
  file_not_found path := "[Errno 2] No such file or directory: '" +:+ path +:+ "'"
|}.

(** The same host with its disk full: the write raises and leaves the
    file empty. *)
Definition full_disk : Runtime := {|
  http_exception_str status_code detail := pretty status_code +:+ ": " +:+ detail;
  path_suffix := suffix_of;
  path_type_error := "expected str, bytes or os.PathLike object, not NoneType";
  temp_name := make_temp_name;
  temp_write _ _ _ := Some ("[Errno 28] No space left on device", []);
  file_not_found path := "[Errno 2] No such file or directory: '" +:+ path +:+ "'"
|}.

Definition world (files : gmap string bytes) (d : script) : World script :=
  MkWorld files d [].

(** Inputs of the runs below. *)
Definition png : bytes := [Byte.x89; Byte.x50; Byte.x4e; Byte.x47].

Definition cat_png : UploadFile.t := UploadFile.Build (Some "cat.png") (Some "image/png") png.

Definition notes_txt : UploadFile.t := UploadFile.Build (Some "notes.txt") (Some "text/plain") [].

Definition three_urls : list string :=
  ["https://x/a.png"; "https://x/b.png"; "https://x/c.png"].

Definition eleven_urls : list string := replicate 11 "https://x/img.png"%string.

End Stub.

(** ** The rest of the application *)

(** *** Start-up

    The module reads the token of the remote service from the environment,
    refuses to start without it and writes it back to the environment.  The
    result is the environment and the token, or the [ValueError]. *)
Definition load_token (environ : gmap string string)
  : (gmap string string * string) + exn :=
  match environ !! "REPLICATE_API_TOKEN" with          (* os.getenv *)
  | Some token =>
      if String.eqb token ""
      then inr (Exception "REPLICATE_API_TOKEN environment variable is required")
      else inl (<["REPLICATE_API_TOKEN" := token]> environ, token)
  | None => inr (Exception "REPLICATE_API_TOKEN environment variable is required")
  end.

(** *** The routes *)

(** A request, by route: what the decorators of [main.py] dispatch on. *)
Inductive request (HttpUrl : Type) : Type :=
  | GetRoot
  | GetHealth
  | PostEnhanceFromUrl (body : ImageEnhanceRequest.t HttpUrl)
  | PostEnhanceFromFile (file : UploadFile.t) (scale : Z)
  | GetDownload (image_id : string)
  | GetStatus (job_id : string)
  | PostEnhanceBatch (image_urls : list HttpUrl) (scale : Z).
Arguments GetRoot {HttpUrl}.
Arguments GetHealth {HttpUrl}.
Arguments PostEnhanceFromUrl {HttpUrl} _.
Arguments PostEnhanceFromFile {HttpUrl} _ _.
Arguments GetDownload {HttpUrl} _.
Arguments GetStatus {HttpUrl} _.
Arguments PostEnhanceBatch {HttpUrl} _ _.

Section Application.
Context {D Output HttpUrl : Type}.
Context `{!Replicate D Output, !Str Output, !Str HttpUrl, !Runtime}.

(** GET / *)
Definition root : Py D dict :=
  ret [ ("message", VStr "AI Image Enhancer API is running!") ].

(** GET /health *)
Definition health_check : Py D dict :=
  ret [ ("status", VStr "healthy"); ("service", VStr "AI Image Enhancer") ].

(** GET /download/{image_id} *)
Definition download_image (image_id : string) : Py D dict :=
  raise (HTTPException 501 "Download functionality not implemented").

(** GET /status/{job_id} *)
Definition get_enhancement_status (job_id : string) : Py D dict :=
  raise (HTTPException 501 "Status checking not implemented").

(** The handler of each route; the response model of the URL endpoint is
    sent as its dict. *)
Definition handle (r : request HttpUrl) : Py D dict :=
  match r with
  | GetRoot => root
  | GetHealth => health_check
  | PostEnhanceFromUrl body =>
      let! response := enhance_image_from_url body in
      ret (ImageEnhanceResponse.model_dump response)
  | PostEnhanceFromFile file scale => enhance_image_from_file file scale
  | GetDownload image_id => download_image image_id
  | GetStatus job_id => get_enhancement_status job_id
  | PostEnhanceBatch image_urls scale => enhance_batch image_urls scale
  end.

(** The world after a sequence of requests, served one after the other:
    no handler yields between making its temporary file and unlinking it,
    nor during a call to the model. *)
Fixpoint serve (requests : list (request HttpUrl)) (w : World D) : World D :=
  match requests with
  | [] => w
  | r :: requests' => serve requests' (handle r w).2
  end.

End Application.

(** A call the handlers may make: to the one model, with a scale it takes. *)
Definition valid_call (call : string * input_data) : Prop :=
  call.1 = MODEL_NAME ∧ scale call.2 ∈ [2; 4; 8]%Z.

(** Whether a call to the model returned. *)
Definition returned {A : Type} (outcome : A + exn) : bool :=
  match outcome with
  | inl _ => true
  | inr _ => false
  end.

(** The list under a key of a response body. *)
Definition list_at (k : string) (body : dict) : list value :=
  match dict_get k body with
  | Some (VList l) => l
  | _ => []
  end.

(** An upload without a file name. *)
Definition unnamed_png : UploadFile.t :=
  UploadFile.Build None (Some "image/png") Stub.png.

(** An upload whose file name ends in a null byte. *)
Definition null_png : UploadFile.t :=
  UploadFile.Build (Some ("cat." +:+ String Ascii.zero "")) (Some "image/png") Stub.png.

(** ** Reasoning about handler bodies *)

Section Contract.
Context {D Output HttpUrl : Type}.
Context `{!Replicate D Output, !Str Output, !Str HttpUrl, !Runtime}.

Implicit Types (w : World D) (e : exn) (scale : Z).

Lemma scale_in_allowed_true scale :
  scale ∈ [2; 4; 8]%Z → scale_in_allowed scale = true.
Proof. intros Hin. by apply bool_decide_eq_true. Qed.

Lemma scale_in_allowed_false scale :
  scale ∉ [2; 4; 8]%Z → scale_in_allowed scale = false.
Proof. intros Hout. by apply bool_decide_eq_false. Qed.

(** A call to the model is logged, leaves the files alone and moves the
    model on: the log counts the calls. *)
Lemma replicate_run_spec model input w :
  replicate_run model input w =
    ((run (backend w) model input).1,
     MkWorld (fs w) (run (backend w) model input).2 (calls w ++ [(model, input)])).
Proof. unfold replicate_run. by destruct (run _ _ _). Qed.

Lemma checked_scale_allowed scale w :
  scale ∈ [2; 4; 8]%Z → checked_scale (D := D) (Some scale) w = (inl scale, w).
Proof. intros Hin. unfold checked_scale. by rewrite scale_in_allowed_true. Qed.

Lemma checked_scale_rejected (scale : option Z) w :
  scale ∉ [Some 2; Some 4; Some 8]%Z →
  checked_scale (D := D) scale w = (inr (HTTPException 400 "Scale must be 2, 4, or 8"), w).
Proof.
  intros Hout. destruct scale as [z|]; [|done].
  unfold checked_scale. rewrite scale_in_allowed_false; [done|].
  intros Hin. apply Hout.
  repeat (apply elem_of_cons in Hin as [->|Hin]; [by repeat constructor|]).
  by apply elem_of_nil in Hin.
Qed.

(** [String.prefix] is Python's [startswith]. *)
Lemma prefix_startswith (p s : string) :
  String.prefix p s = true ↔ ∃ rest, s = p +:+ rest.
Proof.
  revert s. induction p as [|c p IH]; intros s.
  - split; [intros _; by exists s|]. intros _. by destruct s.
  - destruct s as [|c' s].
    + split; [done|]. intros [rest Hrest]. discriminate Hrest.
    + change (String.prefix (String c p) (String c' s))
        with (if Ascii.ascii_dec c c' then String.prefix p s else false).
      destruct (Ascii.ascii_dec c c') as [->|Hne].
      * rewrite IH. split; intros [rest Hrest]; exists rest.
        -- by rewrite Hrest.
        -- by injection Hrest.
      * split; [done|]. intros [rest Hrest]. injection Hrest as ? ?. done.
Qed.

Lemma missing_or_not_prefixed_image rest :
  missing_or_not_prefixed "image/" (Some ("image/" +:+ rest)) = false.
Proof.
  unfold missing_or_not_prefixed. apply orb_false_iff. split; [done|].
  apply negb_false_iff, prefix_startswith. by exists rest.
Qed.

Lemma missing_or_not_prefixed_other (content_type : option string) :
  (∀ rest, content_type ≠ Some ("image/" +:+ rest)) →
  missing_or_not_prefixed "image/" content_type = true.
Proof.
  intros Hnot. destruct content_type as [s|]; [|done].
  unfold missing_or_not_prefixed. apply orb_true_iff. right.
  apply negb_true_iff, not_true_is_false. intros [rest ->]%prefix_startswith.
  by apply (Hnot rest).
Qed.

(** ** POST /enhance-from-url *)

(** C9.  For every input URL and every scale among 2, 4 and 8, when the
    call to the model returns an output, [enhance_image_from_url] returns
    exactly the response whose [enhanced_image_url] is [str(output)], whose
    [original_image_url] is the input URL, whose [scale] is the input scale
    and whose [status] is ["success"]; the model was called once, with the
    URL and the scale. *)
Theorem enhance_image_from_url_success (image_url : HttpUrl) scale w output d' :
  scale ∈ [2; 4; 8]%Z →
  run (backend w) MODEL_NAME {| image := ImageUrl (str image_url); scale := scale |}
    = (inl output, d') →
  enhance_image_from_url (ImageEnhanceRequest.Build image_url (Some scale)) w =
    (inl {| ImageEnhanceResponse.enhanced_image_url := str output;
            ImageEnhanceResponse.original_image_url := str image_url;
            ImageEnhanceResponse.scale := scale;
            ImageEnhanceResponse.status := "success" |},
     MkWorld (fs w) d'
       (calls w ++ [(MODEL_NAME, {| image := ImageUrl (str image_url); scale := scale |})])).
Proof.
  intros Hscale Hrun.
  unfold enhance_image_from_url, try_except, bind.
  cbn [ImageEnhanceRequest.scale ImageEnhanceRequest.image_url].
  rewrite checked_scale_allowed by done.
  by rewrite replicate_run_spec, Hrun.
Qed.

(** C2, as the code has it.  When the call to the model raises [e], with a
    scale among 2, 4 and 8, [enhance_image_from_url] fails with status 500
    (an upstream failure) and the detail ["Enhancement failed: "] followed
    by [str(e)]. *)
Theorem enhance_image_from_url_upstream_failure (image_url : HttpUrl) scale w e d' :
  scale ∈ [2; 4; 8]%Z →
  run (backend w) MODEL_NAME {| image := ImageUrl (str image_url); scale := scale |}
    = (inr e, d') →
  (enhance_image_from_url (ImageEnhanceRequest.Build image_url (Some scale)) w).1
    = inr (HTTPException 500 ("Enhancement failed: " +:+ str e)) ∧
  error_kind_of (HTTPException 500 ("Enhancement failed: " +:+ str e)) = Some UpstreamFailure.
Proof.
  intros Hscale Hrun. split; [|done].
  unfold enhance_image_from_url, try_except, bind.
  cbn [ImageEnhanceRequest.scale ImageEnhanceRequest.image_url].
  rewrite checked_scale_allowed by done.
  by rewrite replicate_run_spec, Hrun.
Qed.

(** C1, what the code does.  For a scale that is not 2, 4 or 8 (a missing
    scale included) the [HTTPException] of status 400 raised by the check is
    caught by the handler's own [except Exception] and raised again with
    status 500: the failure is an upstream failure, not an invalid
    argument, and its detail wraps [str()] of the first exception. *)
Theorem enhance_image_from_url_invalid_scale (request : ImageEnhanceRequest.t HttpUrl) w :
  ImageEnhanceRequest.scale request ∉ [Some 2; Some 4; Some 8]%Z →
  enhance_image_from_url request w =
    (inr (HTTPException 500
            ("Enhancement failed: " +:+ http_exception_str 400 "Scale must be 2, 4, or 8")),
     w) ∧
  error_kind_of (HTTPException 500
            ("Enhancement failed: " +:+ http_exception_str 400 "Scale must be 2, 4, or 8"))
    ≠ Some InvalidArgument.
Proof.
  intros Hscale. split; [|done].
  unfold enhance_image_from_url, try_except, bind.
  by rewrite checked_scale_rejected.
Qed.

(** ** POST /enhance-from-file *)

(** The run of the handler on an upload that passes the checks: the
    content goes to a temporary file, the model is called on that file
    opened for reading, and the file is unlinked whatever the outcome. *)
Lemma enhance_image_from_file_run (file : UploadFile.t) scale w rest filename path :
  UploadFile.content_type file = Some ("image/" +:+ rest) →
  scale ∈ [2; 4; 8]%Z →
  UploadFile.filename file = Some filename →
  temp_name (fs w) (path_suffix filename) = inl path →
  temp_write (<[path := []]> (fs w)) path (UploadFile.content file) = None →
  let input :=
    {| image := ImageFile (FileObject path (UploadFile.content file)); scale := scale |} in
  enhance_image_from_file file scale w =
    (match (run (backend w) MODEL_NAME input).1 with
     | inl output => inl (file_response output filename scale)
     | inr e => inr (surfaced "Enhancement failed: " e)
     end,
     MkWorld (delete path (fs w)) (run (backend w) MODEL_NAME input).2
       (calls w ++ [(MODEL_NAME, input)])).
Proof.
  intros Hct Hscale Hname Hpath Hwrite. destruct w as [files d log].
  cbn [fs backend calls] in *.
  set (input := InputData (ImageFile (FileObject path (UploadFile.content file))) scale).
  unfold enhance_image_from_file.
  cbv [try_except bind raise_if ret raise file_read Path_suffix NamedTemporaryFile
       temp_file_write open_rb os_unlink os_path_exists].
  rewrite Hct, missing_or_not_prefixed_image, scale_in_allowed_true, Hname by done.
  cbn [negb fs backend calls]. rewrite Hpath. cbn [fs backend calls]. rewrite Hwrite.
  cbn [fs backend calls].
  rewrite lookup_insert_eq. fold input. rewrite replicate_run_spec.
  cbn [fs backend calls].
  destruct (run d MODEL_NAME input) as [[output|e] d']; cbn [fst snd fs backend calls].
  - rewrite lookup_insert_eq. by rewrite !delete_insert_eq.
  - rewrite bool_decide_eq_true_2 by (rewrite lookup_insert_eq; eauto).
    cbn [fs backend calls].
    rewrite lookup_insert_eq, !delete_insert_eq. by destruct e.
Qed.

(** The run of the handler when [tempfile] refuses to make the file. *)
Lemma enhance_image_from_file_no_temp_file (file : UploadFile.t) scale w rest filename message :
  UploadFile.content_type file = Some ("image/" +:+ rest) →
  scale ∈ [2; 4; 8]%Z →
  UploadFile.filename file = Some filename →
  temp_name (fs w) (path_suffix filename) = inr message →
  enhance_image_from_file file scale w =
    (inr (HTTPException 500 ("Enhancement failed: " +:+ message)), w).
Proof.
  intros Hct Hscale Hname Hpath. unfold enhance_image_from_file.
  cbv [try_except bind raise_if ret raise file_read Path_suffix NamedTemporaryFile].
  rewrite Hct, missing_or_not_prefixed_image, scale_in_allowed_true, Hname by done.
  cbn [negb]. by rewrite Hpath.
Qed.

(** The run of the handler when the write to the temporary file, or its
    close, raises: the [with] block is left before the inner [try] is
    entered, so nothing unlinks the file. *)
Lemma enhance_image_from_file_write_error
    (file : UploadFile.t) scale w rest filename path message written :
  UploadFile.content_type file = Some ("image/" +:+ rest) →
  scale ∈ [2; 4; 8]%Z →
  UploadFile.filename file = Some filename →
  temp_name (fs w) (path_suffix filename) = inl path →
  temp_write (<[path := []]> (fs w)) path (UploadFile.content file)
    = Some (message, written) →
  enhance_image_from_file file scale w =
    (inr (HTTPException 500 ("Enhancement failed: " +:+ message)),
     MkWorld (<[path := written]> (fs w)) (backend w) (calls w)).
Proof.
  intros Hct Hscale Hname Hpath Hwrite. destruct w as [files d log].
  cbn [fs backend calls] in *. unfold enhance_image_from_file.
  cbv [try_except bind raise_if ret raise file_read Path_suffix NamedTemporaryFile
       temp_file_write].
  rewrite Hct, missing_or_not_prefixed_image, scale_in_allowed_true, Hname by done.
  cbn [negb fs backend calls]. rewrite Hpath. cbn [fs backend calls]. rewrite Hwrite.
  cbn [fs backend calls]. by rewrite insert_insert_eq.
Qed.

(** C4, where the code departs from it.  On an upload that passes the
    checks, when the temporary file has been made and the write of the
    upload to it (or the close that ends the [with] block) raises, the
    call fails with status 500 and the file is still on disk when the error
    reaches the caller: the [with] block comes before the [try] whose
    handler unlinks the file, and the file was opened with [delete=False].
    The model was not called. *)
Theorem enhance_image_from_file_keeps_file_on_write_error
    (file : UploadFile.t) scale w rest filename path message written :
  UploadFile.content_type file = Some ("image/" +:+ rest) →
  scale ∈ [2; 4; 8]%Z →
  UploadFile.filename file = Some filename →
  temp_name (fs w) (path_suffix filename) = inl path →
  temp_write (<[path := []]> (fs w)) path (UploadFile.content file)
    = Some (message, written) →
  enhance_image_from_file file scale w =
    (inr (HTTPException 500 ("Enhancement failed: " +:+ message)),
     MkWorld (<[path := written]> (fs w)) (backend w) (calls w)) ∧
  fs (enhance_image_from_file file scale w).2 !! path = Some written.
Proof.
  intros Hct Hscale Hname Hpath Hwrite.
  rewrite (enhance_image_from_file_write_error file scale w rest filename path message written)
    by done.
  split; [done|]. cbn [snd fs]. apply lookup_insert_eq.
Qed.

(** X17.  On an upload that passes the checks, once the temporary file is
    made and the upload written to it, the file is handed, open, to the
    model; whether the model returns or raises, the world in which the
    response is returned or the error reaches the caller no longer has the
    file: nothing is left at its path, and the other files are as they
    were. *)
Theorem enhance_image_from_file_removes_temp_file
    (file : UploadFile.t) scale w rest filename path :
  UploadFile.content_type file = Some ("image/" +:+ rest) →
  scale ∈ [2; 4; 8]%Z →
  UploadFile.filename file = Some filename →
  temp_name (fs w) (path_suffix filename) = inl path →
  temp_write (<[path := []]> (fs w)) path (UploadFile.content file) = None →
  let input :=
    {| image := ImageFile (FileObject path (UploadFile.content file)); scale := scale |} in
  let '(result, w') := enhance_image_from_file file scale w in
  calls w' = calls w ++ [(MODEL_NAME, input)] ∧
  match (run (backend w) MODEL_NAME input).1 with
  | inl output => result = inl (file_response output filename scale)
  | inr e => result = inr (surfaced "Enhancement failed: " e)
  end ∧
  fs w' !! path = None ∧
  fs w' = delete path (fs w).
Proof.
  intros Hct Hscale Hname Hpath Hwrite input.
  rewrite (enhance_image_from_file_run file scale w rest filename path) by done.
  fold input. cbn [fs calls].
  split_and!; [done| |apply lookup_delete_eq|done].
  by destruct (run (backend w) MODEL_NAME input).1.
Qed.

(** C8.  An upload whose content type is missing or does not begin with
    ["image/"] is refused with status 400 (an invalid argument); the world
    is untouched: the model is not called and no file is made. *)
Theorem enhance_image_from_file_rejects_content_type (file : UploadFile.t) scale w :
  (∀ rest, UploadFile.content_type file ≠ Some ("image/" +:+ rest)) →
  enhance_image_from_file file scale w =
    (inr (HTTPException 400 "File must be an image"), w) ∧
  error_kind_of (HTTPException 400 "File must be an image") = Some InvalidArgument.
Proof.
  intros Hct. split; [|done].
  unfold enhance_image_from_file, try_except, bind.
  by rewrite missing_or_not_prefixed_other.
Qed.

(** ** POST /enhance-batch *)

Lemma outcomes_length (d : D) inputs : length (outcomes d inputs) = length inputs.
Proof.
  revert d. induction inputs as [|input inputs IH]; intros d; [done|].
  simpl. destruct (run d MODEL_NAME input) as [outcome d']. simpl. by rewrite IH.
Qed.

(** One turn of the loop: the model is called, and the entry goes to the
    end of [results] or of [errors]; the turn itself never raises. *)
Lemma batch_body_spec scale results errors i (image_url : HttpUrl) w :
  let input := {| image := ImageUrl (str image_url); scale := scale |} in
  batch_body scale (results, errors) (i, image_url) w =
    (inl match (run (backend w) MODEL_NAME input).1 with
         | inl output => (results ++ [success_item i image_url output], errors)
         | inr e => (results, errors ++ [failed_item i image_url e])
         end,
     MkWorld (fs w) (run (backend w) MODEL_NAME input).2 (calls w ++ [(MODEL_NAME, input)])).
Proof.
  intros input. unfold batch_body, try_except, bind. fold input.
  rewrite replicate_run_spec.
  by destruct (run (backend w) MODEL_NAME input) as [[output|e] d'].
Qed.

(** The whole loop, from any index and any accumulator: every item is
    visited, and its entry is appended according to its outcome. *)
Lemma batch_loop_spec scale (image_urls : list HttpUrl) i results errors w :
  let inputs := batch_inputs image_urls scale in
  let os := outcomes (backend w) inputs in
  for_each (enumerate_from i image_urls) (batch_body scale) (results, errors) w =
    (inl (results ++ successes_from i image_urls os,
          errors ++ failures_from i image_urls os),
     MkWorld (fs w) (backend_after (backend w) inputs)
       (calls w ++ (pair MODEL_NAME <$> inputs))).
Proof.
  revert i results errors w.
  induction image_urls as [|image_url image_urls IH]; intros i results errors w.
  - destruct w. simpl. unfold ret. by rewrite !app_nil_r.
  - cbn [enumerate_from for_each]. unfold bind at 1. rewrite batch_body_spec.
    cbn [batch_inputs fmap list_fmap outcomes backend_after].
    destruct (run (backend w) MODEL_NAME _) as [[output|e] d'] eqn:Hrun;
      cbn [fst snd]; rewrite IH; cbn [fs backend calls successes_from failures_from];
      by rewrite <- !app_assoc.
Qed.

Lemma successes_failures_length i (image_urls : list HttpUrl) (os : list (Output + exn)) :
  length os = length image_urls →
  (length (successes_from i image_urls os) + length (failures_from i image_urls os)
   = length image_urls)%nat.
Proof.
  revert i os. induction image_urls as [|image_url image_urls IH]; intros i os Hlen.
  - by destruct os.
  - destruct os as [|[output|e] os]; [done| |]; simpl in *;
      specialize (IH (S i) os); lia.
Qed.

Lemma success_in_results i (image_urls : list HttpUrl) (os : list (Output + exn))
    k image_url output :
  image_urls !! k = Some image_url →
  os !! k = Some (inl output) →
  success_item (i + k) image_url output ∈ successes_from i image_urls os.
Proof.
  revert i os k. induction image_urls as [|u image_urls IH]; intros i os k Hurl Hout.
  - done.
  - destruct os as [|o os]; [done|]. destruct k as [|k]; simpl in *.
    + injection Hurl as ->. injection Hout as ->. rewrite Nat.add_0_r. apply list_elem_of_here.
    + replace (i + S k)%nat with (S i + k)%nat by lia.
      destruct o; [apply list_elem_of_further|]; by apply IH.
Qed.

Lemma failure_in_errors i (image_urls : list HttpUrl) (os : list (Output + exn))
    k image_url e :
  image_urls !! k = Some image_url →
  os !! k = Some (inr e) →
  failed_item (i + k) image_url e ∈ failures_from i image_urls os.
Proof.
  revert i os k. induction image_urls as [|u image_urls IH]; intros i os k Hurl Hout.
  - done.
  - destruct os as [|o os]; [done|]. destruct k as [|k]; simpl in *.
    + injection Hurl as ->. injection Hout as ->. rewrite Nat.add_0_r. apply list_elem_of_here.
    + replace (i + S k)%nat with (S i + k)%nat by lia.
      destruct o; [|apply list_elem_of_further]; by apply IH.
Qed.

Lemma ascending_from_nil i : ascending_from i [].
Proof. repeat split; constructor. Qed.

Lemma ascending_from_weaken i items : ascending_from (S i) items → ascending_from i items.
Proof.
  intros (Hidx & Hlow & Hsorted). repeat split; [done| |done].
  eapply Forall_impl; [exact Hlow|]. intros z Hz. simpl in Hz. lia.
Qed.

Lemma ascending_from_cons i item items :
  item_index item = Some (Z.of_nat i) →
  ascending_from (S i) items →
  ascending_from i (item :: items).
Proof.
  intros Hitem (Hidx & Hlow & Hsorted). repeat split.
  - constructor; [by rewrite Hitem|done].
  - simpl. rewrite Hitem. constructor; [lia|].
    eapply Forall_impl; [exact Hlow|]. intros z Hz. simpl in Hz. lia.
  - simpl. rewrite Hitem. constructor; [done|].
    eapply Forall_impl; [exact Hlow|]. intros z Hz. simpl in Hz. lia.
Qed.

Lemma successes_ascending i (image_urls : list HttpUrl) (os : list (Output + exn)) :
  ascending_from i (successes_from i image_urls os).
Proof.
  revert i os. induction image_urls as [|u image_urls IH]; intros i os.
  - apply ascending_from_nil.
  - destruct os as [|[output|e] os]; simpl.
    + apply ascending_from_nil.
    + by apply ascending_from_cons.
    + by apply ascending_from_weaken.
Qed.

Lemma failures_ascending i (image_urls : list HttpUrl) (os : list (Output + exn)) :
  ascending_from i (failures_from i image_urls os).
Proof.
  revert i os. induction image_urls as [|u image_urls IH]; intros i os.
  - apply ascending_from_nil.
  - destruct os as [|[output|e] os]; simpl.
    + apply ascending_from_nil.
    + by apply ascending_from_weaken.
    + by apply ascending_from_cons.
Qed.

Lemma ascending_from_by_index i items : ascending_from i items → ascending_by_index items.
Proof. by intros (? & _ & ?). Qed.

(** The run of the handler on a batch that passes the checks. *)
Lemma enhance_batch_run (image_urls : list HttpUrl) scale w :
  (length image_urls ≤ 10)%nat →
  scale ∈ [2; 4; 8]%Z →
  let inputs := batch_inputs image_urls scale in
  let os := outcomes (backend w) inputs in
  enhance_batch image_urls scale w =
    (inl (batch_response (successes_from 0 image_urls os) (failures_from 0 image_urls os) scale),
     MkWorld (fs w) (backend_after (backend w) inputs)
       (calls w ++ (pair MODEL_NAME <$> inputs))).
Proof.
  intros Hlen Hscale inputs os.
  unfold enhance_batch, try_except, bind at 1.
  rewrite bool_decide_eq_false_2 by (unfold len; lia).
  unfold raise_if at 1, ret at 1, bind at 1.
  rewrite scale_in_allowed_true by done.
  unfold raise_if, ret at 1, negb, bind, enumerate.
  by rewrite batch_loop_spec.
Qed.

(** C3.  On at most ten URLs and a scale among 2, 4 and 8, whatever the
    model answers to each call, the batch returns a response: the model was
    called once per URL, in order, a failure stopping nothing; the two
    counts add up to the number of URLs; for every item whose call raised
    [e], [errors] has the entry made of the item's index, its URL, [str(e)]
    and ["failed"]; for every item whose call returned, [results] has the
    entry made of its index, its URL, the output and ["success"]; and in
    both sequences the indices go up. *)
Theorem enhance_batch_partial_failures (image_urls : list HttpUrl) scale w :
  (length image_urls ≤ 10)%nat →
  scale ∈ [2; 4; 8]%Z →
  let inputs :=
    (λ image_url, {| image := ImageUrl (str image_url); scale := scale |}) <$> image_urls in
  let os := outcomes (backend w) inputs in
  ∃ results errors w',
    enhance_batch image_urls scale w =
      (inl [ ("results", VList results);
             ("errors", VList errors);
             ("total_processed", VInt (Z.of_nat (length results)));
             ("total_failed", VInt (Z.of_nat (length errors)));
             ("scale", VInt scale) ], w') ∧
    calls w' = calls w ++ (pair MODEL_NAME <$> inputs) ∧
    (length results + length errors = length image_urls)%nat ∧
    (∀ i image_url e,
       image_urls !! i = Some image_url → os !! i = Some (inr e) →
       VDict [ ("index", VInt (Z.of_nat i));
               ("original_url", VStr (str image_url));
               ("error", VStr (str e));
               ("status", VStr "failed") ] ∈ errors) ∧
    (∀ i image_url output,
       image_urls !! i = Some image_url → os !! i = Some (inl output) →
       VDict [ ("index", VInt (Z.of_nat i));
               ("original_url", VStr (str image_url));
               ("enhanced_url", VStr (str output));
               ("status", VStr "success") ] ∈ results) ∧
    ascending_by_index results ∧
    ascending_by_index errors.
Proof.
  intros Hlen Hscale inputs os.
  eexists _, _, _. split; [by apply enhance_batch_run|].
  change inputs with (batch_inputs image_urls scale) in *.
  fold os. cbn [calls]. split_and!.
  - done.
  - apply successes_failures_length.
    unfold os, batch_inputs. by rewrite outcomes_length, length_fmap.
  - intros i image_url e Hurl Hout. by apply (failure_in_errors 0).
  - intros i image_url output Hurl Hout. by apply (success_in_results 0).
  - eapply ascending_from_by_index, successes_ascending.
  - eapply ascending_from_by_index, failures_ascending.
Qed.

(** C7.  A batch of more than ten URLs is refused with status 400 (an
    invalid argument) and the detail ["Batch size limited to 10 images"],
    whatever the scale; the world is untouched: the model is not called. *)
Theorem enhance_batch_too_large (image_urls : list HttpUrl) scale w :
  (10 < length image_urls)%nat →
  enhance_batch image_urls scale w =
    (inr (HTTPException 400 "Batch size limited to 10 images"), w) ∧
  error_kind_of (HTTPException 400 "Batch size limited to 10 images") = Some InvalidArgument.
Proof.
  intros Hlen. split; [|done].
  unfold enhance_batch, try_except, bind.
  by rewrite bool_decide_eq_true_2 by (unfold len; lia).
Qed.

(** C10.  The empty batch with a scale among 2, 4 and 8 succeeds: both
    sequences are empty, both counts are 0, the scale is the given one, and
    the world is untouched: the model is not called. *)
Theorem enhance_batch_empty scale w :
  scale ∈ [2; 4; 8]%Z →
  enhance_batch (@nil HttpUrl) scale w =
    (inl [ ("results", VList []);
           ("errors", VList []);
           ("total_processed", VInt 0);
           ("total_failed", VInt 0);
           ("scale", VInt scale) ], w).
Proof.
  intros Hscale. rewrite enhance_batch_run by (done || simpl; lia).
  destruct w. simpl. by rewrite app_nil_r.
Qed.

(** ** The three endpoints together *)

(** C5.  For a scale that is not 2, 4 or 8 each of the three endpoints
    fails with an [HTTPException], and in the very world it was called in:
    the log of calls has not grown and the model has not moved, so
    [replicate.run] was not invoked (nor was any file made). *)
Theorem invalid_scale_never_reaches_model
    scale (image_url : HttpUrl) (file : UploadFile.t) (image_urls : list HttpUrl) w :
  scale ∉ [2; 4; 8]%Z →
  (∃ status_code detail,
     enhance_image_from_url (ImageEnhanceRequest.Build image_url (Some scale)) w
       = (inr (HTTPException status_code detail), w)) ∧
  (∃ status_code detail,
     enhance_image_from_file file scale w = (inr (HTTPException status_code detail), w)) ∧
  (∃ status_code detail,
     enhance_batch image_urls scale w = (inr (HTTPException status_code detail), w)).
Proof.
  intros Hscale. split_and!.
  - eexists _, _. unfold enhance_image_from_url, try_except, bind.
    cbn [ImageEnhanceRequest.scale]. rewrite checked_scale_rejected; [done|].
    intros Hin. apply Hscale.
    repeat (apply elem_of_cons in Hin as [[= ->]|Hin]; [by repeat constructor|]).
    by apply elem_of_nil in Hin.
  - unfold enhance_image_from_file, try_except, bind at 1.
    destruct (missing_or_not_prefixed _ _); [by eexists _, _|].
    unfold raise_if at 1, ret at 1, bind at 1.
    rewrite scale_in_allowed_false by done. by eexists _, _.
  - unfold enhance_batch, try_except, bind at 1.
    destruct (bool_decide _); [by eexists _, _|].
    unfold raise_if at 1, ret at 1, bind at 1.
    rewrite scale_in_allowed_false by done. by eexists _, _.
Qed.

(** C6, as the code has it.  When the call to the model returns an output
    on an upload that passes the checks (the temporary file having been
    made and written for the call), the response has exactly the four
    entries [enhanced_image_url], [original_filename], [scale] and
    [status]: the original file name stands where the URL endpoint has
    [original_image_url], which the response does not have, and the three
    other entries are those the URL endpoint returns for the same output
    and scale. *)
Theorem enhance_image_from_file_success
    (file : UploadFile.t) scale w rest filename path output d' :
  UploadFile.content_type file = Some ("image/" +:+ rest) →
  scale ∈ [2; 4; 8]%Z →
  UploadFile.filename file = Some filename →
  temp_name (fs w) (path_suffix filename) = inl path →
  temp_write (<[path := []]> (fs w)) path (UploadFile.content file) = None →
  run (backend w) MODEL_NAME
    {| image := ImageFile (FileObject path (UploadFile.content file));
       scale := scale |} = (inl output, d') →
  ∃ body,
    (enhance_image_from_file file scale w).1 = inl body ∧
    body = [ ("enhanced_image_url", VStr (str output));
             ("original_filename", VStr filename);
             ("scale", VInt scale);
             ("status", VStr "success") ] ∧
    dict_get "original_image_url" body = None ∧
    ∀ (image_url : HttpUrl) w0 d0,
      run (backend w0) MODEL_NAME {| image := ImageUrl (str image_url); scale := scale |}
        = (inl output, d0) →
      ∃ response,
        (enhance_image_from_url (ImageEnhanceRequest.Build image_url (Some scale)) w0).1
          = inl response ∧
        ∀ k, k ∈ ["enhanced_image_url"; "scale"; "status"] →
             dict_get k body = dict_get k (ImageEnhanceResponse.model_dump response).
Proof.
  intros Hct Hscale Hname Hpath Hwrite Hrun. eexists. split_and!.
  - rewrite (enhance_image_from_file_run file scale w rest filename path) by done.
    cbn [fst]. by rewrite Hrun.
  - done.
  - done.
  - intros image_url w0 d0 Hrun0. eexists. split.
    + unfold enhance_image_from_url, try_except, bind.
      cbn [ImageEnhanceRequest.scale ImageEnhanceRequest.image_url].
      rewrite checked_scale_allowed by done.
      by rewrite replicate_run_spec, Hrun0.
    + intros k Hk.
      repeat (apply elem_of_cons in Hk as [->|Hk]; [done|]).
      by apply elem_of_nil in Hk.
Qed.

End Contract.

(** ** Runs against the scripted model *)

Section Runs.
Import Stub.

Local Open Scope Z_scope.

(** The scripted model answers the calls of a batch with its script: any
    pattern of failures over the indices is the behaviour of some model. *)
Lemma script_outcomes (d : script) (inputs : list input_data) :
  length d = length inputs → outcomes d inputs = d.
Proof.
  revert d. induction inputs as [|input inputs IH]; intros [|outcome d] Hlen; try done.
  simpl in *. f_equal. apply IH. lia.
Qed.

(** The example of the API's description: one URL, scale 4, the model
    answering ["https://cdn/out.png"]. *)
Lemma enhance_image_from_url_success_witness :
  4 ∈ [2; 4; 8] ∧
  enhance_image_from_url (ImageEnhanceRequest.Build "https://x/img.png" (Some 4))
      (world ∅ [inl "https://cdn/out.png"]) =
    (inl {| ImageEnhanceResponse.enhanced_image_url := "https://cdn/out.png";
            ImageEnhanceResponse.original_image_url := "https://x/img.png";
            ImageEnhanceResponse.scale := 4;
            ImageEnhanceResponse.status := "success" |},
     MkWorld ∅ [] [(MODEL_NAME, {| image := ImageUrl "https://x/img.png"; scale := 4 |})]).
Proof.
  assert (Hscale : 4 ∈ [2; 4; 8]) by (apply (bool_decide_unpack _); exact I).
  split; [exact Hscale|].
  exact (enhance_image_from_url_success (D := script) (HttpUrl := string)
           "https://x/img.png" 4 (world ∅ [inl "https://cdn/out.png"])
           "https://cdn/out.png" [] Hscale eq_refl).
Defined.

Lemma enhance_image_from_url_upstream_failure_witness :
  4 ∈ [2; 4; 8] ∧
  (enhance_image_from_url (ImageEnhanceRequest.Build "https://x/img.png" (Some 4))
     (world ∅ [inr (Exception "model error")])).1
    = inr (HTTPException 500 "Enhancement failed: model error") ∧
  error_kind_of (HTTPException 500 "Enhancement failed: model error") = Some UpstreamFailure.
Proof.
  assert (Hscale : 4 ∈ [2; 4; 8]) by (apply (bool_decide_unpack _); exact I).
  split; [exact Hscale|].
  exact (enhance_image_from_url_upstream_failure (D := script) (HttpUrl := string)
           "https://x/img.png" 4 (world ∅ [inr (Exception "model error")])
           (Exception "model error") [] Hscale eq_refl).
Defined.

(** The claim C2 asks for the cause's message alone; the detail has more. *)
Lemma enhance_image_from_url_detail_not_verbatim :
  (enhance_image_from_url (ImageEnhanceRequest.Build "https://x/img.png" (Some 4))
     (world ∅ [inr (Exception "model error")])).1
    = inr (HTTPException 500 "Enhancement failed: model error") ∧
  (enhance_image_from_url (ImageEnhanceRequest.Build "https://x/img.png" (Some 4))
     (world ∅ [inr (Exception "model error")])).1
    ≠ inr (HTTPException 500 (str (Exception "model error"))).
Proof. split; [reflexivity|discriminate]. Qed.

(** Scale 3 on the URL endpoint: status 500 where C1 asks for 400. *)
Lemma enhance_image_from_url_invalid_scale_witness :
  (Some 3 ∉ [Some 2; Some 4; Some 8]) ∧
  enhance_image_from_url (ImageEnhanceRequest.Build "https://x/img.png" (Some 3))
      (world ∅ [inl "https://cdn/out.png"]) =
    (inr (HTTPException 500 "Enhancement failed: 400: Scale must be 2, 4, or 8"),
     world ∅ [inl "https://cdn/out.png"]) ∧
  error_kind_of (HTTPException 500 "Enhancement failed: 400: Scale must be 2, 4, or 8")
    ≠ Some InvalidArgument.
Proof.
  assert (Hout : Some 3 ∉ [Some 2; Some 4; Some 8]) by (apply (bool_decide_unpack _); exact I).
  split; [exact Hout|].
  exact (enhance_image_from_url_invalid_scale (D := script) (HttpUrl := string)
           (ImageEnhanceRequest.Build "https://x/img.png" (Some 3))
           (world ∅ [inl "https://cdn/out.png"]) Hout).
Defined.

(** An upload whose call to the model fails: the error is surfaced, and
    the temporary file is gone. *)
Lemma enhance_image_from_file_removes_temp_file_witness :
  UploadFile.content_type cat_png = Some ("image/" +:+ "png") ∧
  2 ∈ [2; 4; 8] ∧
  UploadFile.filename cat_png = Some "cat.png" ∧
  temp_name (fs (world ∅ [inr (Exception "model error")])) (path_suffix "cat.png")
    = inl "/tmp/tmp0.png" ∧
  temp_write (<["/tmp/tmp0.png" := []]> (fs (world ∅ [inr (Exception "model error")])))
    "/tmp/tmp0.png" (UploadFile.content cat_png) = None ∧
  let '(result, w') :=
    enhance_image_from_file cat_png 2 (world ∅ [inr (Exception "model error")]) in
  calls w' =
    [(MODEL_NAME, {| image := ImageFile (FileObject "/tmp/tmp0.png" png); scale := 2 |})] ∧
  result = inr (HTTPException 500 "Enhancement failed: model error") ∧
  fs w' !! "/tmp/tmp0.png" = None ∧
  fs w' = delete "/tmp/tmp0.png" ∅.
Proof.
  assert (Hscale : 2 ∈ [2; 4; 8]) by (apply (bool_decide_unpack _); exact I).
  split_and!; [reflexivity|exact Hscale|reflexivity|reflexivity|reflexivity|].
  exact (enhance_image_from_file_removes_temp_file (D := script)
           cat_png 2 (world ∅ [inr (Exception "model error")]) "png" "cat.png"
           "/tmp/tmp0.png" eq_refl Hscale eq_refl eq_refl eq_refl).
Defined.

Lemma enhance_image_from_file_rejects_content_type_witness :
  (∀ rest, UploadFile.content_type notes_txt ≠ Some ("image/" +:+ rest)) ∧
  enhance_image_from_file notes_txt 2 (world ∅ [inl "https://cdn/out.png"]) =
    (inr (HTTPException 400 "File must be an image"), world ∅ [inl "https://cdn/out.png"]) ∧
  error_kind_of (HTTPException 400 "File must be an image") = Some InvalidArgument.
Proof.
  assert (Hct : ∀ rest, UploadFile.content_type notes_txt ≠ Some ("image/" +:+ rest))
    by (intros rest; discriminate).
  split; [exact Hct|].
  exact (enhance_image_from_file_rejects_content_type (D := script)
           notes_txt 2 (world ∅ [inl "https://cdn/out.png"]) Hct).
Defined.

(** Three URLs, the second call failing. *)
Example enhance_batch_second_fails :
  enhance_batch three_urls 2
      (world ∅ [inl "https://cdn/a.png"; inr (Exception "model error"); inl "https://cdn/c.png"]) =
    (inl [ ("results",
            VList [ VDict [ ("index", VInt 0); ("original_url", VStr "https://x/a.png");
                            ("enhanced_url", VStr "https://cdn/a.png");
                            ("status", VStr "success") ];
                    VDict [ ("index", VInt 2); ("original_url", VStr "https://x/c.png");
                            ("enhanced_url", VStr "https://cdn/c.png");
                            ("status", VStr "success") ] ]);
           ("errors",
            VList [ VDict [ ("index", VInt 1); ("original_url", VStr "https://x/b.png");
                            ("error", VStr "model error");
                            ("status", VStr "failed") ] ]);
           ("total_processed", VInt 2);
           ("total_failed", VInt 1);
           ("scale", VInt 2) ],
     MkWorld ∅ []
       [ (MODEL_NAME, {| image := ImageUrl "https://x/a.png"; scale := 2 |});
         (MODEL_NAME, {| image := ImageUrl "https://x/b.png"; scale := 2 |});
         (MODEL_NAME, {| image := ImageUrl "https://x/c.png"; scale := 2 |}) ]).
Proof. reflexivity. Qed.

Lemma enhance_batch_partial_failures_witness :
  (length three_urls ≤ 10)%nat ∧
  2 ∈ [2; 4; 8] ∧
  let w := world ∅ [inl "https://cdn/a.png"; inr (Exception "model error");
                    inl "https://cdn/c.png"] in
  let inputs :=
    (λ image_url : string, {| image := ImageUrl (str image_url); scale := 2 |})
      <$> three_urls in
  let os := outcomes (backend w) inputs in
  ∃ results errors w',
    enhance_batch three_urls 2 w =
      (inl [ ("results", VList results);
             ("errors", VList errors);
             ("total_processed", VInt (Z.of_nat (length results)));
             ("total_failed", VInt (Z.of_nat (length errors)));
             ("scale", VInt 2) ], w') ∧
    calls w' = calls w ++ (pair MODEL_NAME <$> inputs) ∧
    (length results + length errors = length three_urls)%nat ∧
    (∀ i image_url e,
       three_urls !! i = Some image_url → os !! i = Some (inr e) →
       VDict [ ("index", VInt (Z.of_nat i));
               ("original_url", VStr (str image_url));
               ("error", VStr (str e));
               ("status", VStr "failed") ] ∈ errors) ∧
    (∀ i image_url output,
       three_urls !! i = Some image_url → os !! i = Some (inl output) →
       VDict [ ("index", VInt (Z.of_nat i));
               ("original_url", VStr (str image_url));
               ("enhanced_url", VStr (str output));
               ("status", VStr "success") ] ∈ results) ∧
    ascending_by_index results ∧
    ascending_by_index errors.
Proof.
  assert (Hlen : (length three_urls ≤ 10)%nat) by (simpl; lia).
  assert (Hscale : 2 ∈ [2; 4; 8]) by (apply (bool_decide_unpack _); exact I).
  split_and!; [exact Hlen|exact Hscale|].
  exact (enhance_batch_partial_failures (D := script) three_urls 2
           (world ∅ [inl "https://cdn/a.png"; inr (Exception "model error");
                     inl "https://cdn/c.png"]) Hlen Hscale).
Defined.

Lemma enhance_batch_too_large_witness :
  (10 < length eleven_urls)%nat ∧
  enhance_batch eleven_urls 2 (world ∅ [inl "https://cdn/out.png"]) =
    (inr (HTTPException 400 "Batch size limited to 10 images"),
     world ∅ [inl "https://cdn/out.png"]) ∧
  error_kind_of (HTTPException 400 "Batch size limited to 10 images") = Some InvalidArgument.
Proof.
  assert (Hlen : (10 < length eleven_urls)%nat) by (simpl; lia).
  split; [exact Hlen|].
  exact (enhance_batch_too_large (D := script) eleven_urls 2
           (world ∅ [inl "https://cdn/out.png"]) Hlen).
Defined.

Lemma enhance_batch_empty_witness :
  8 ∈ [2; 4; 8] ∧
  enhance_batch (@nil string) 8 (world ∅ [inl "https://cdn/out.png"]) =
    (inl [ ("results", VList []);
           ("errors", VList []);
           ("total_processed", VInt 0);
           ("total_failed", VInt 0);
           ("scale", VInt 8) ],
     world ∅ [inl "https://cdn/out.png"]).
Proof.
  assert (Hscale : 8 ∈ [2; 4; 8]) by (apply (bool_decide_unpack _); exact I).
  split; [exact Hscale|].
  exact (enhance_batch_empty (D := script) (HttpUrl := string) 8
           (world ∅ [inl "https://cdn/out.png"]) Hscale).
Defined.

Lemma invalid_scale_never_reaches_model_witness :
  (3 ∉ [2; 4; 8]) ∧
  (∃ status_code detail,
     enhance_image_from_url (ImageEnhanceRequest.Build "https://x/img.png" (Some 3))
         (world ∅ [inl "https://cdn/out.png"])
       = (inr (HTTPException status_code detail), world ∅ [inl "https://cdn/out.png"])) ∧
  (∃ status_code detail,
     enhance_image_from_file cat_png 3 (world ∅ [inl "https://cdn/out.png"])
       = (inr (HTTPException status_code detail), world ∅ [inl "https://cdn/out.png"])) ∧
  (∃ status_code detail,
     enhance_batch three_urls 3 (world ∅ [inl "https://cdn/out.png"])
       = (inr (HTTPException status_code detail), world ∅ [inl "https://cdn/out.png"])).
Proof.
  assert (Hscale : 3 ∉ [2; 4; 8]) by (apply (bool_decide_unpack _); exact I).
  split; [exact Hscale|].
  exact (invalid_scale_never_reaches_model (D := script) 3 "https://x/img.png" cat_png
           three_urls (world ∅ [inl "https://cdn/out.png"]) Hscale).
Defined.

(** What the three endpoints answer to scale 3. *)
Example invalid_scale_statuses :
  (enhance_image_from_url (ImageEnhanceRequest.Build "https://x/img.png" (Some 3))
     (world ∅ [inl "https://cdn/out.png"])).1
    = inr (HTTPException 500 "Enhancement failed: 400: Scale must be 2, 4, or 8") ∧
  (enhance_image_from_file cat_png 3 (world ∅ [inl "https://cdn/out.png"])).1
    = inr (HTTPException 400 "Scale must be 2, 4, or 8") ∧
  (enhance_batch three_urls 3 (world ∅ [inl "https://cdn/out.png"])).1
    = inr (HTTPException 400 "Scale must be 2, 4, or 8").
Proof. by split_and!. Qed.

Lemma enhance_image_from_file_success_witness :
  UploadFile.content_type cat_png = Some ("image/" +:+ "png") ∧
  4 ∈ [2; 4; 8] ∧
  UploadFile.filename cat_png = Some "cat.png" ∧
  temp_name (fs (world ∅ [inl "https://cdn/out.png"])) (path_suffix "cat.png")
    = inl "/tmp/tmp0.png" ∧
  temp_write (<["/tmp/tmp0.png" := []]> (fs (world ∅ [inl "https://cdn/out.png"])))
    "/tmp/tmp0.png" (UploadFile.content cat_png) = None ∧
  ∃ body,
    (enhance_image_from_file cat_png 4 (world ∅ [inl "https://cdn/out.png"])).1 = inl body ∧
    body = [ ("enhanced_image_url", VStr "https://cdn/out.png");
             ("original_filename", VStr "cat.png");
             ("scale", VInt 4);
             ("status", VStr "success") ] ∧
    dict_get "original_image_url" body = None ∧
    ∀ (image_url : string) (w0 : World script) d0,
      run (backend w0) MODEL_NAME {| image := ImageUrl image_url; scale := 4 |}
        = (inl "https://cdn/out.png", d0) →
      ∃ response,
        (enhance_image_from_url (ImageEnhanceRequest.Build image_url (Some 4)) w0).1
          = inl response ∧
        ∀ k, k ∈ ["enhanced_image_url"; "scale"; "status"] →
             dict_get k body = dict_get k (ImageEnhanceResponse.model_dump response).
Proof.
  assert (Hscale : 4 ∈ [2; 4; 8]) by (apply (bool_decide_unpack _); exact I).
  split_and!; [reflexivity|exact Hscale|reflexivity|reflexivity|reflexivity|].
  exact (enhance_image_from_file_success (D := script) (HttpUrl := string)
           cat_png 4 (world ∅ [inl "https://cdn/out.png"]) "png" "cat.png" "/tmp/tmp0.png"
           "https://cdn/out.png" [] eq_refl Hscale eq_refl eq_refl eq_refl eq_refl).
Defined.

(** The claim C6 asks for every entry of the URL endpoint's response and
    the file name besides; [original_image_url] is not in the response to
    an upload. *)
Lemma enhance_image_from_file_lacks_original_image_url :
  (enhance_image_from_file cat_png 4 (world ∅ [inl "https://cdn/out.png"])).1
    = inl [ ("enhanced_image_url", VStr "https://cdn/out.png");
            ("original_filename", VStr "cat.png");
            ("scale", VInt 4);
            ("status", VStr "success") ] ∧
  (enhance_image_from_url (ImageEnhanceRequest.Build "https://x/img.png" (Some 4))
     (world ∅ [inl "https://cdn/out.png"])).1
    = inl (ImageEnhanceResponse.Build "https://cdn/out.png" "https://x/img.png" 4 "success") ∧
  ¬ (keys (ImageEnhanceResponse.model_dump
             (ImageEnhanceResponse.Build "https://cdn/out.png" "https://x/img.png" 4 "success"))
       ⊆ keys [ ("enhanced_image_url", VStr "https://cdn/out.png");
                ("original_filename", VStr "cat.png");
                ("scale", VInt 4);
                ("status", VStr "success") ]).
Proof.
  split_and!; [reflexivity|reflexivity|].
  intros Hsub. specialize (Hsub "original_image_url").
  assert (Hin : "original_image_url" ∈
                  ["enhanced_image_url"; "original_filename"; "scale"; "status"])
    by (apply Hsub; by repeat constructor).
  by apply (bool_decide_pack _) in Hin.
Qed.

End Runs.

(** ** A run on a full disk *)

Section FullDiskRuns.
Import Stub.
#[local] Existing Instance full_disk | 0.

Local Open Scope Z_scope.

(** The upload is accepted, the temporary file is made, the write fails:
    the call answers 500 and [/tmp/tmp0.png] stays. *)
Lemma enhance_image_from_file_keeps_file_on_write_error_witness :
  UploadFile.content_type cat_png = Some ("image/" +:+ "png") ∧
  2 ∈ [2; 4; 8] ∧
  UploadFile.filename cat_png = Some "cat.png" ∧
  temp_name (fs (world ∅ [inl "https://cdn/out.png"])) (path_suffix "cat.png")
    = inl "/tmp/tmp0.png" ∧
  temp_write (<["/tmp/tmp0.png" := []]> (fs (world ∅ [inl "https://cdn/out.png"])))
    "/tmp/tmp0.png" (UploadFile.content cat_png)
    = Some ("[Errno 28] No space left on device", []) ∧
  enhance_image_from_file cat_png 2 (world ∅ [inl "https://cdn/out.png"]) =
    (inr (HTTPException 500 "Enhancement failed: [Errno 28] No space left on device"),
     MkWorld (<["/tmp/tmp0.png" := []]> ∅) [inl "https://cdn/out.png"] []) ∧
  fs (enhance_image_from_file cat_png 2 (world ∅ [inl "https://cdn/out.png"])).2
    !! "/tmp/tmp0.png" = Some [].
Proof.
  assert (Hscale : 2 ∈ [2; 4; 8]) by (apply (bool_decide_unpack _); exact I).
  assert (Hpath : temp_name (fs (world ∅ [inl "https://cdn/out.png"])) (path_suffix "cat.png")
                  = inl "/tmp/tmp0.png") by reflexivity.
  assert (Hwrite : temp_write
                     (<["/tmp/tmp0.png" := []]> (fs (world ∅ [inl "https://cdn/out.png"])))
                     "/tmp/tmp0.png" (UploadFile.content cat_png)
                   = Some ("[Errno 28] No space left on device", [])) by reflexivity.
  refine (conj eq_refl (conj Hscale (conj eq_refl (conj Hpath (conj Hwrite _))))).
  exact (enhance_image_from_file_keeps_file_on_write_error (D := script)
           cat_png 2 (world ∅ [inl "https://cdn/out.png"]) "png" "cat.png"
           "/tmp/tmp0.png" "[Errno 28] No space left on device" []
           eq_refl Hscale eq_refl Hpath Hwrite).
Defined.

End FullDiskRuns.

(** ** Every run of a handler

    The three enhancement handlers, case by case over their inputs: which
    branch is taken, what is answered and what the world is afterwards. *)

Section Cases.
Context {D Output HttpUrl : Type}.
Context `{!Replicate D Output, !Str Output, !Str HttpUrl, !Runtime}.

Implicit Types (w : World D) (e : exn) (scale : Z).

Lemma scale_in_allowed_spec scale :
  scale_in_allowed scale = true ↔ scale ∈ [2; 4; 8]%Z.
Proof. unfold scale_in_allowed. apply bool_decide_eq_true. Qed.

Lemma missing_or_not_prefixed_false (content_type : option string) :
  missing_or_not_prefixed "image/" content_type = false →
  ∃ rest, content_type = Some ("image/" +:+ rest).
Proof.
  destruct content_type as [s|]; [|done]. unfold missing_or_not_prefixed.
  intros [_ Hprefix]%orb_false_iff.
  apply negb_false_iff, prefix_startswith in Hprefix as [rest ->]. by exists rest.
Qed.

Lemma enhance_image_from_url_cases (request : ImageEnhanceRequest.t HttpUrl) w :
  ((ImageEnhanceRequest.scale request ∉ [Some 2; Some 4; Some 8]%Z) ∧
   enhance_image_from_url request w =
     (inr (HTTPException 500
             ("Enhancement failed: " +:+ http_exception_str 400 "Scale must be 2, 4, or 8")),
      w)) ∨
  (∃ scale,
     ImageEnhanceRequest.scale request = Some scale ∧ scale ∈ [2; 4; 8]%Z ∧
     let input :=
       {| image := ImageUrl (str (ImageEnhanceRequest.image_url request));
          scale := scale |} in
     enhance_image_from_url request w =
       (match (run (backend w) MODEL_NAME input).1 with
        | inl output =>
            inl (ImageEnhanceResponse.Build (str output)
                   (str (ImageEnhanceRequest.image_url request)) scale "success")
        | inr e => inr (HTTPException 500 ("Enhancement failed: " +:+ str e))
        end,
        MkWorld (fs w) (run (backend w) MODEL_NAME input).2
          (calls w ++ [(MODEL_NAME, input)]))).
Proof.
  destruct (decide (ImageEnhanceRequest.scale request ∈ [Some 2; Some 4; Some 8]%Z))
    as [Hin|Hout].
  - right. destruct request as [image_url [scale|]]; cbn [ImageEnhanceRequest.scale] in *.
    + assert (Hscale : scale ∈ [2; 4; 8]%Z).
      { repeat (apply elem_of_cons in Hin as [[= ->]|Hin]; [by repeat constructor|]).
        by apply elem_of_nil in Hin. }
      exists scale. split_and!; [done..|]. cbv zeta.
      unfold enhance_image_from_url, try_except, bind.
      cbn [ImageEnhanceRequest.scale ImageEnhanceRequest.image_url].
      rewrite checked_scale_allowed by done.
      rewrite replicate_run_spec.
      by destruct (run (backend w) MODEL_NAME _) as [[output|e] d'].
    + exfalso.
      repeat (apply elem_of_cons in Hin as [[=]|Hin]).
      by apply elem_of_nil in Hin.
  - left. split; [done|].
    unfold enhance_image_from_url, try_except, bind.
    by rewrite checked_scale_rejected.
Qed.

Lemma enhance_image_from_file_cases (file : UploadFile.t) scale w :
  ((∀ rest, UploadFile.content_type file ≠ Some ("image/" +:+ rest)) ∧
   enhance_image_from_file file scale w =
     (inr (HTTPException 400 "File must be an image"), w)) ∨
  (∃ rest,
     UploadFile.content_type file = Some ("image/" +:+ rest) ∧
     (scale ∉ [2; 4; 8]%Z) ∧
     enhance_image_from_file file scale w =
       (inr (HTTPException 400 "Scale must be 2, 4, or 8"), w)) ∨
  (∃ rest,
     UploadFile.content_type file = Some ("image/" +:+ rest) ∧
     scale ∈ [2; 4; 8]%Z ∧
     UploadFile.filename file = None ∧
     enhance_image_from_file file scale w =
       (inr (HTTPException 500 ("Enhancement failed: " +:+ path_type_error)), w)) ∨
  (∃ rest filename message,
     UploadFile.content_type file = Some ("image/" +:+ rest) ∧
     scale ∈ [2; 4; 8]%Z ∧
     UploadFile.filename file = Some filename ∧
     temp_name (fs w) (path_suffix filename) = inr message ∧
     enhance_image_from_file file scale w =
       (inr (HTTPException 500 ("Enhancement failed: " +:+ message)), w)) ∨
  (∃ rest filename path message written,
     UploadFile.content_type file = Some ("image/" +:+ rest) ∧
     scale ∈ [2; 4; 8]%Z ∧
     UploadFile.filename file = Some filename ∧
     temp_name (fs w) (path_suffix filename) = inl path ∧
     temp_write (<[path := []]> (fs w)) path (UploadFile.content file)
       = Some (message, written) ∧
     enhance_image_from_file file scale w =
       (inr (HTTPException 500 ("Enhancement failed: " +:+ message)),
        MkWorld (<[path := written]> (fs w)) (backend w) (calls w))) ∨
  (∃ rest filename path,
     UploadFile.content_type file = Some ("image/" +:+ rest) ∧
     scale ∈ [2; 4; 8]%Z ∧
     UploadFile.filename file = Some filename ∧
     temp_name (fs w) (path_suffix filename) = inl path ∧
     temp_write (<[path := []]> (fs w)) path (UploadFile.content file) = None ∧
     let input :=
       {| image := ImageFile (FileObject path (UploadFile.content file));
          scale := scale |} in
     enhance_image_from_file file scale w =
       (match (run (backend w) MODEL_NAME input).1 with
        | inl output => inl (file_response output filename scale)
        | inr e => inr (surfaced "Enhancement failed: " e)
        end,
        MkWorld (delete path (fs w)) (run (backend w) MODEL_NAME input).2
          (calls w ++ [(MODEL_NAME, input)]))).
Proof.
  destruct (missing_or_not_prefixed "image/" (UploadFile.content_type file)) eqn:Hct.
  { left. split.
    - intros rest Hrest. rewrite Hrest, missing_or_not_prefixed_image in Hct. done.
    - unfold enhance_image_from_file, try_except, bind. by rewrite Hct. }
  right. apply missing_or_not_prefixed_false in Hct as [rest Hct].
  destruct (decide (scale ∈ [2; 4; 8]%Z)) as [Hscale|Hscale]; last first.
  { left. exists rest. split_and!; [done..|].
    unfold enhance_image_from_file. cbv [try_except bind raise_if ret raise].
    by rewrite Hct, missing_or_not_prefixed_image, scale_in_allowed_false. }
  right. destruct (UploadFile.filename file) as [filename|] eqn:Hname; last first.
  { left. exists rest. split_and!; [done..|].
    unfold enhance_image_from_file.
    cbv [try_except bind raise_if ret raise file_read Path_suffix].
    by rewrite Hct, missing_or_not_prefixed_image, scale_in_allowed_true, Hname. }
  right. destruct (temp_name (fs w) (path_suffix filename)) as [path|message] eqn:Hpath;
    last first.
  { left. exists rest, filename, message. split_and!; [done..|].
    by apply (enhance_image_from_file_no_temp_file file scale w rest filename). }
  right.
  destruct (temp_write (<[path := []]> (fs w)) path (UploadFile.content file))
    as [[message written]|] eqn:Hwrite.
  - left. exists rest, filename, path, message, written. split_and!; [done..|].
    by apply (enhance_image_from_file_write_error file scale w rest filename).
  - right. exists rest, filename, path. split_and!; [done..|].
    by apply (enhance_image_from_file_run file scale w rest filename).
Qed.

Lemma enhance_batch_cases (image_urls : list HttpUrl) scale w :
  ((10 < length image_urls)%nat ∧
   enhance_batch image_urls scale w =
     (inr (HTTPException 400 "Batch size limited to 10 images"), w)) ∨
  ((length image_urls ≤ 10)%nat ∧ (scale ∉ [2; 4; 8]%Z) ∧
   enhance_batch image_urls scale w =
     (inr (HTTPException 400 "Scale must be 2, 4, or 8"), w)) ∨
  ((length image_urls ≤ 10)%nat ∧ scale ∈ [2; 4; 8]%Z ∧
   let inputs := batch_inputs image_urls scale in
   let os := outcomes (backend w) inputs in
   enhance_batch image_urls scale w =
     (inl (batch_response (successes_from 0 image_urls os)
             (failures_from 0 image_urls os) scale),
      MkWorld (fs w) (backend_after (backend w) inputs)
        (calls w ++ (pair MODEL_NAME <$> inputs)))).
Proof.
  destruct (decide (10 < length image_urls)%nat) as [Hlen|Hlen].
  - left. split; [done|].
    unfold enhance_batch, try_except, bind.
    by rewrite bool_decide_eq_true_2 by (unfold len; lia).
  - right. assert (length image_urls ≤ 10)%nat by lia.
    destruct (decide (scale ∈ [2; 4; 8]%Z)) as [Hscale|Hscale].
    + right. split_and!; [done..|]. by apply enhance_batch_run.
    + left. split_and!; [done..|].
      unfold enhance_batch. cbv [try_except bind raise_if ret raise].
      rewrite bool_decide_eq_false_2 by (unfold len; lia).
      by rewrite scale_in_allowed_false.
Qed.

End Cases.

(** ** Further properties of the application *)

Section Coverage.
Context {D Output HttpUrl : Type}.
Context `{!Replicate D Output, !Str Output, !Str HttpUrl, !Runtime}.

Implicit Types (w : World D) (e : exn) (scale : Z).

(** X1.  Start-up succeeds exactly when [REPLICATE_API_TOKEN] is set to a
    non-empty string; it then yields that string and leaves the environment
    as it was (writing the token back changes nothing).  Otherwise, that
    is when the variable is unset or empty, it raises the [ValueError]. *)
Theorem load_token_spec (environ : gmap string string) :
  (∀ environ' token,
     load_token environ = inl (environ', token) ↔
     environ !! "REPLICATE_API_TOKEN" = Some token ∧ token ≠ "" ∧ environ' = environ) ∧
  (∀ e,
     load_token environ = inr e ↔
     e = Exception "REPLICATE_API_TOKEN environment variable is required" ∧
     (environ !! "REPLICATE_API_TOKEN" = None ∨
      environ !! "REPLICATE_API_TOKEN" = Some "")).
Proof.
  unfold load_token.
  destruct (environ !! "REPLICATE_API_TOKEN") as [token|] eqn:Hget.
  - destruct (String.eqb_spec token "") as [->|Hne].
    + split.
      * intros environ' token'. split; [done|]. by intros ([= <-] & ? & _).
      * intros e. split; [intros [= <-]; eauto|]. by intros [-> _].
    + split.
      * intros environ' token'. rewrite insert_id by done. split.
        -- by intros [= <- <-].
        -- by intros ([= <-] & _ & ->).
      * intros e. split; [done|]. intros [_ [?|[= ?]]]; [done|]. by subst.
  - split.
    + intros environ' token'. split; [done|]. by intros (? & _).
    + intros e. split; [intros [= <-]; eauto|]. by intros [-> _].
Qed.

Lemma surfaced_is_http prefix e :
  ∃ status_code detail, surfaced prefix e = HTTPException status_code detail.
Proof. destruct e; simpl; eauto. Qed.

(** X2.  No route lets a plain exception out: whatever the request, the
    world and the behaviour of the model, a handler that fails fails with
    an [HTTPException]. *)
Theorem handle_raises_only_http (r : request HttpUrl) w e :
  (handle r w).1 = inr e →
  ∃ status_code detail, e = HTTPException status_code detail.
Proof.
  destruct r as [| |body|file scale|image_id|job_id|image_urls scale];
    cbn [handle]; [done|done| | |by intros [= <-]; eauto|by intros [= <-]; eauto|].
  - unfold bind.
    destruct (enhance_image_from_url_cases body w) as [[_ ->]|(scale & _ & _ & ->)].
    + intros [= <-]; eauto.
    + cbv zeta. destruct (run (backend w) MODEL_NAME _).1; [done|].
      intros [= <-]; eauto.
  - destruct (enhance_image_from_file_cases file scale w)
      as [[_ ->]|[(? & _ & _ & ->)|[(? & _ & _ & _ & ->)|[(? & ? & ? & _ & _ & _ & _ & ->)
          |[(? & ? & ? & ? & ? & _ & _ & _ & _ & _ & ->)
           |(? & ? & ? & _ & _ & _ & _ & _ & ->)]]]]];
      try (intros [= <-]; eauto).
    cbv zeta. destruct (run (backend w) MODEL_NAME _).1; [done|].
    intros [= <-]. apply surfaced_is_http.
  - destruct (enhance_batch_cases image_urls scale w)
      as [[_ ->]|[(_ & _ & ->)|(_ & _ & ->)]]; intros [= <-]; eauto.
Qed.

(** X3.  Every failure of the URL endpoint has status 500 and a detail
    that begins with ["Enhancement failed: "], whatever its cause: the
    endpoint answers no other error status. *)
Theorem enhance_image_from_url_fails_with_500 (request : ImageEnhanceRequest.t HttpUrl) w e :
  (enhance_image_from_url request w).1 = inr e →
  ∃ cause, e = HTTPException 500 ("Enhancement failed: " +:+ cause).
Proof.
  destruct (enhance_image_from_url_cases request w) as [[_ ->]|(scale & _ & _ & ->)].
  - intros [= <-]; eauto.
  - cbv zeta. destruct (run (backend w) MODEL_NAME _).1; [done|].
    intros [= <-]; eauto.
Qed.

(** X4.  The batch endpoint returns a response exactly when there are at
    most ten URLs and the scale is 2, 4 or 8; its only failures are the two
    refusals of status 400: whatever the model does, the endpoint's
    [except Exception] (status 500) is never reached. *)
Theorem enhance_batch_accepts_iff (image_urls : list HttpUrl) scale w :
  ((∃ body, (enhance_batch image_urls scale w).1 = inl body) ↔
   (length image_urls ≤ 10)%nat ∧ scale ∈ [2; 4; 8]%Z) ∧
  (∀ e, (enhance_batch image_urls scale w).1 = inr e →
        e = HTTPException 400 "Batch size limited to 10 images" ∨
        e = HTTPException 400 "Scale must be 2, 4, or 8").
Proof.
  destruct (enhance_batch_cases image_urls scale w)
    as [[Hlen ->]|[(Hlen & Hscale & ->)|(Hlen & Hscale & ->)]]; cbn [fst].
  - split; [|intros e [= <-]; eauto]. split; [by intros [? ?]|]. intros [? _]. lia.
  - split; [|intros e [= <-]; eauto]. split; [by intros [? ?]|]. by intros [_ ?].
  - split; [|done]. split; [done|]. eauto.
Qed.

(** X5.  An upload with an image content type and a scale among 2, 4 and
    8 but no file name fails with status 500, the detail carrying the
    [TypeError] of [Path(None)]; it fails before any file is made or the
    model called: the world is untouched. *)
Theorem enhance_image_from_file_without_filename (file : UploadFile.t) scale w rest :
  UploadFile.content_type file = Some ("image/" +:+ rest) →
  scale ∈ [2; 4; 8]%Z →
  UploadFile.filename file = None →
  enhance_image_from_file file scale w =
    (inr (HTTPException 500 ("Enhancement failed: " +:+ path_type_error)), w).
Proof.
  intros Hct Hscale Hname. unfold enhance_image_from_file.
  cbv [try_except bind raise_if ret raise file_read Path_suffix].
  by rewrite Hct, missing_or_not_prefixed_image, scale_in_allowed_true, Hname.
Qed.

(** X18.  When [tempfile] refuses to make the temporary file (a file
    name whose suffix holds a null byte or is too long), an upload that
    passes the checks fails with status 500, the detail carrying the
    message of [tempfile]'s exception; no file is made and the model is
    not called: the world is untouched. *)
Theorem enhance_image_from_file_tempfile_refuses
    (file : UploadFile.t) scale w rest filename message :
  UploadFile.content_type file = Some ("image/" +:+ rest) →
  scale ∈ [2; 4; 8]%Z →
  UploadFile.filename file = Some filename →
  temp_name (fs w) (path_suffix filename) = inr message →
  enhance_image_from_file file scale w =
    (inr (HTTPException 500 ("Enhancement failed: " +:+ message)), w).
Proof.
  intros Hct Hscale Hname Hpath.
  by apply (enhance_image_from_file_no_temp_file file scale w rest filename).
Qed.

(** The files after a call to the upload endpoint: as before, or with the
    temporary file left by a failed write, or without whatever was at the
    path of the temporary file. *)
Lemma enhance_image_from_file_files (file : UploadFile.t) scale w :
  fs (enhance_image_from_file file scale w).2 = fs w ∨
  (∃ filename path message written,
     UploadFile.filename file = Some filename ∧
     temp_name (fs w) (path_suffix filename) = inl path ∧
     temp_write (<[path := []]> (fs w)) path (UploadFile.content file)
       = Some (message, written) ∧
     fs (enhance_image_from_file file scale w).2 = <[path := written]> (fs w)) ∨
  (∃ filename path,
     UploadFile.filename file = Some filename ∧
     temp_name (fs w) (path_suffix filename) = inl path ∧
     temp_write (<[path := []]> (fs w)) path (UploadFile.content file) = None ∧
     fs (enhance_image_from_file file scale w).2 = delete path (fs w)).
Proof.
  destruct (enhance_image_from_file_cases file scale w)
    as [[_ ->]|[(? & _ & _ & ->)|[(? & _ & _ & _ & ->)|[(? & ? & ? & _ & _ & _ & _ & ->)
        |[(? & filename & path & message & written & _ & _ & Hname & Hpath & Hwrite & ->)
         |(? & filename & path & _ & _ & Hname & Hpath & Hwrite & ->)]]]]];
    [by left..| |].
  - right; left. by exists filename, path, message, written.
  - right; right. by exists filename, path.
Qed.

(** X6.  Unless the write of the upload to the temporary file (or the
    close that follows) raises, the upload endpoint leaves no file behind:
    on every other path (a refusal, [tempfile] refusing the name, the model
    returning or raising) each file on disk after the call was on disk
    before it, with the same content. *)
Theorem enhance_image_from_file_leaves_no_file (file : UploadFile.t) scale w :
  (∀ filename path,
     UploadFile.filename file = Some filename →
     temp_name (fs w) (path_suffix filename) = inl path →
     temp_write (<[path := []]> (fs w)) path (UploadFile.content file) = None) →
  fs (enhance_image_from_file file scale w).2 ⊆ fs w.
Proof.
  intros Hwrite.
  destruct (enhance_image_from_file_files file scale w)
    as [->|[(filename & path & message & written & Hname & Hpath & Hfail & _)
           |(filename & path & _ & _ & _ & ->)]].
  - done.
  - rewrite (Hwrite filename path) in Hfail by done. done.
  - apply delete_subseteq.
Qed.

(** X7.  When the name picked for the temporary file is not taken, as
    [tempfile] sees to, and the write of the upload to it does not raise,
    the files on disk after the call to the upload endpoint are exactly
    those before it. *)
Theorem enhance_image_from_file_restores_files (file : UploadFile.t) scale w :
  (∀ filename path,
     UploadFile.filename file = Some filename →
     temp_name (fs w) (path_suffix filename) = inl path →
     fs w !! path = None ∧
     temp_write (<[path := []]> (fs w)) path (UploadFile.content file) = None) →
  fs (enhance_image_from_file file scale w).2 = fs w.
Proof.
  intros Hfree.
  destruct (enhance_image_from_file_files file scale w)
    as [->|[(filename & path & message & written & Hname & Hpath & Hfail & _)
           |(filename & path & Hname & Hpath & _ & ->)]].
  - done.
  - destruct (Hfree filename path) as [_ Hwrite]; [done..|].
    rewrite Hwrite in Hfail. done.
  - destruct (Hfree filename path) as [Hnone _]; [done..|]. by apply delete_id.
Qed.

(** X15.  The upload endpoint returns a response exactly when the content
    type begins with ["image/"], the scale is 2, 4 or 8, the upload has a
    file name, [tempfile] makes the temporary file, the write of the upload
    to it does not raise, and the model returns an output for that file. *)
Theorem enhance_image_from_file_accepts_iff (file : UploadFile.t) scale w :
  (∃ body, (enhance_image_from_file file scale w).1 = inl body) ↔
  ∃ rest filename path output,
    UploadFile.content_type file = Some ("image/" +:+ rest) ∧
    scale ∈ [2; 4; 8]%Z ∧
    UploadFile.filename file = Some filename ∧
    temp_name (fs w) (path_suffix filename) = inl path ∧
    temp_write (<[path := []]> (fs w)) path (UploadFile.content file) = None ∧
    (run (backend w) MODEL_NAME
       {| image := ImageFile (FileObject path (UploadFile.content file));
          scale := scale |}).1 = inl output.
Proof.
  split.
  - intros [body Hbody].
    destruct (enhance_image_from_file_cases file scale w)
      as [[_ Hrun]|[(? & _ & _ & Hrun)|[(? & _ & _ & _ & Hrun)
          |[(? & ? & ? & _ & _ & _ & _ & Hrun)
           |[(? & ? & ? & ? & ? & _ & _ & _ & _ & _ & Hrun)
            |(rest & filename & path & Hct & Hscale & Hname & Hpath & Hwrite & Hrun)]]]]];
      rewrite Hrun in Hbody; try done.
    cbv zeta in Hbody. cbn [fst] in Hbody.
    destruct (run (backend w) MODEL_NAME _).1 as [output|e] eqn:Hout; [|done].
    by exists rest, filename, path, output.
  - intros (rest & filename & path & output & Hct & Hscale & Hname & Hpath & Hwrite & Hout).
    rewrite (enhance_image_from_file_run file scale w rest filename path) by done.
    cbn [fst]. rewrite Hout. eauto.
Qed.

(** *** Sequences of requests *)

Lemma bind_ret_world {A B} (m : Py D A) (f : A → B) w :
  (bind m (λ a, ret (f a)) w).2 = (m w).2.
Proof. unfold bind, ret. by destruct (m w) as [[a|e] w']. Qed.

Lemma batch_calls_valid (image_urls : list HttpUrl) scale :
  scale ∈ [2; 4; 8]%Z →
  Forall valid_call (pair MODEL_NAME <$> batch_inputs image_urls scale).
Proof.
  intros Hscale. unfold batch_inputs. rewrite <- list_fmap_compose.
  apply Forall_fmap, Forall_forall. by intros image_url _.
Qed.

(** What one request does to the log of calls. *)
Lemma handle_step (r : request HttpUrl) w :
  ∃ new,
    calls (handle r w).2 = calls w ++ new ∧
    Forall valid_call new ∧
    (length new ≤ 10)%nat.
Proof.
  assert (Hnone : ∀ w' : World D, calls w' = calls w →
            ∃ new, calls w' = calls w ++ new ∧ Forall valid_call new ∧
                   (length new ≤ 10)%nat).
  { intros w' ->. exists []. rewrite app_nil_r. split_and!; [done|constructor|simpl; lia]. }
  destruct r as [| |body|file scale|image_id|job_id|image_urls scale]; cbn [handle];
    try (by apply Hnone).
  - rewrite bind_ret_world.
    destruct (enhance_image_from_url_cases body w) as [[_ ->]|(scale & _ & Hscale & ->)];
      [by apply Hnone|].
    cbv zeta. cbn [snd calls fs]. eexists (cons _ nil).
    split_and!; [reflexivity| |simpl; lia].
    constructor; [by split|constructor].
  - destruct (enhance_image_from_file_cases file scale w)
      as [[_ ->]|[(? & _ & _ & ->)|[(? & _ & _ & _ & ->)|[(? & ? & ? & _ & _ & _ & _ & ->)
          |[(? & ? & ? & ? & ? & _ & _ & _ & _ & _ & ->)
           |(? & ? & ? & _ & Hscale & _ & _ & _ & ->)]]]]];
      try (by apply Hnone).
    cbv zeta. cbn [snd calls fs]. eexists (cons _ nil).
    split_and!; [reflexivity| |simpl; lia].
    constructor; [by split|constructor].
  - destruct (enhance_batch_cases image_urls scale w)
      as [[_ ->]|[(_ & _ & ->)|(Hlen & Hscale & ->)]]; try (by apply Hnone).
    cbv zeta. cbn [snd calls fs]. eexists. split_and!; [reflexivity| |].
    + by apply batch_calls_valid.
    + unfold batch_inputs. by rewrite !length_fmap.
Qed.

(** What one request does to the files, on a host whose writes to the
    temporary file do not fail. *)
Lemma handle_files (r : request HttpUrl) w :
  (∀ files path content, temp_write files path content = None) →
  fs (handle r w).2 ⊆ fs w.
Proof.
  intros Hwrite.
  destruct r as [| |body|file scale|image_id|job_id|image_urls scale]; cbn [handle];
    try done.
  - rewrite bind_ret_world.
    by destruct (enhance_image_from_url_cases body w) as [[_ ->]|(scale & _ & _ & ->)].
  - destruct (enhance_image_from_file_files file scale w)
      as [->|[(? & path & ? & ? & _ & _ & Hfail & _)|(? & path & _ & _ & _ & ->)]].
    + done.
    + by rewrite Hwrite in Hfail.
    + apply delete_subseteq.
  - by destruct (enhance_batch_cases image_urls scale w)
      as [[_ ->]|[(_ & _ & ->)|(_ & _ & ->)]].
Qed.

Lemma serve_step (requests : list (request HttpUrl)) w :
  ∃ new,
    calls (serve requests w) = calls w ++ new ∧
    Forall valid_call new ∧
    (length new ≤ 10 * length requests)%nat.
Proof.
  revert w. induction requests as [|r requests IH]; intros w.
  - exists []. rewrite app_nil_r. split_and!; [done|constructor|simpl; lia].
  - cbn [serve].
    destruct (handle_step r w) as (new1 & Hcalls1 & Hvalid1 & Hlen1).
    destruct (IH (handle r w).2) as (new2 & Hcalls2 & Hvalid2 & Hlen2).
    exists (new1 ++ new2). split_and!.
    + by rewrite Hcalls2, Hcalls1, app_assoc.
    + by apply Forall_app.
    + rewrite length_app. simpl. lia.
Qed.

(** X8.  Over any sequence of requests the log of calls to the model only
    grows at its end, and every call made is to [MODEL_NAME] with a scale
    of 2, 4 or 8: no scale that failed the check, or was never checked,
    reaches the model. *)
Theorem serve_calls_valid (requests : list (request HttpUrl)) w :
  ∃ new,
    calls (serve requests w) = calls w ++ new ∧
    Forall valid_call new.
Proof. destruct (serve_step requests w) as (new & ? & ? & _). eauto. Qed.

(** X9.  On a host whose writes to the temporary file never fail, no file
    is left behind over any sequence of requests: each file on disk at the
    end was on disk at the start, with the same content. *)
Theorem serve_leaves_no_file (requests : list (request HttpUrl)) w :
  (∀ files path content, temp_write files path content = None) →
  fs (serve requests w) ⊆ fs w.
Proof.
  intros Hwrite. revert w. induction requests as [|r requests IH]; intros w; [done|].
  cbn [serve]. etrans; [apply IH|]. by apply handle_files.
Qed.

(** X14.  A request makes at most ten calls to the model, so a sequence of
    [n] requests makes at most [10 * n]. *)
Theorem serve_calls_bounded (requests : list (request HttpUrl)) w :
  (length (calls w) ≤ length (calls (serve requests w))
   ≤ length (calls w) + 10 * length requests)%nat.
Proof.
  destruct (serve_step requests w) as (new & -> & _ & Hlen).
  rewrite length_app. lia.
Qed.

(** *** More on batches *)

Lemma batch_outcomes_length (image_urls : list HttpUrl) scale (d : D) :
  length (outcomes d (batch_inputs image_urls scale)) = length image_urls.
Proof. unfold batch_inputs. by rewrite outcomes_length, length_fmap. Qed.

Lemma indices_partition i (image_urls : list HttpUrl) (os : list (Output + exn)) :
  length os = length image_urls →
  omap item_index (successes_from i image_urls os)
    ++ omap item_index (failures_from i image_urls os)
  ≡ₚ Z.of_nat <$> seq i (length image_urls).
Proof.
  revert i os. induction image_urls as [|u image_urls IH]; intros i os Hlen.
  - by destruct os.
  - destruct os as [|[output|e] os]; [done| |]; injection Hlen as Hlen;
      cbn [successes_from failures_from length seq fmap list_fmap].
    + change (omap item_index (success_item i u output :: ?l))
        with (Z.of_nat i :: omap item_index l).
      cbn [app]. constructor. by apply IH.
    + change (omap item_index (failed_item i u e :: ?l))
        with (Z.of_nat i :: omap item_index l).
      rewrite <- Permutation_middle. constructor. by apply IH.
Qed.

(** X10.  In the response to an accepted batch of [n] URLs every index
    from [0] to [n - 1] is the index of exactly one entry, of [results] or
    of [errors]: the indices of the two sequences together are a
    rearrangement of [0, ..., n - 1]. *)
Theorem enhance_batch_indices_partition (image_urls : list HttpUrl) scale w :
  (length image_urls ≤ 10)%nat →
  scale ∈ [2; 4; 8]%Z →
  ∃ body,
    (enhance_batch image_urls scale w).1 = inl body ∧
    omap item_index (list_at "results" body) ++ omap item_index (list_at "errors" body)
    ≡ₚ Z.of_nat <$> seq 0 (length image_urls).
Proof.
  intros Hlen Hscale. eexists. split.
  - by rewrite enhance_batch_run.
  - change (list_at "results" (batch_response ?rs ?es ?s)) with rs.
    change (list_at "errors" (batch_response ?rs ?es ?s)) with es.
    apply indices_partition, batch_outcomes_length.
Qed.

Lemma successes_length i (image_urls : list HttpUrl) (os : list (Output + exn)) :
  length os = length image_urls →
  length (successes_from i image_urls os) = length (List.filter returned os).
Proof.
  revert i os. induction image_urls as [|u image_urls IH]; intros i os Hlen.
  - by destruct os.
  - destruct os as [|[output|e] os]; [done| |]; injection Hlen as Hlen; simpl;
      by rewrite IH.
Qed.

Lemma failures_length i (image_urls : list HttpUrl) (os : list (Output + exn)) :
  length os = length image_urls →
  length (failures_from i image_urls os)
    = length (List.filter (λ o, negb (returned o)) os).
Proof.
  revert i os. induction image_urls as [|u image_urls IH]; intros i os Hlen.
  - by destruct os.
  - destruct os as [|[output|e] os]; [done| |]; injection Hlen as Hlen; simpl;
      by rewrite IH.
Qed.

(** X11.  In the response to an accepted batch [total_processed] is the
    number of calls to the model that returned and [total_failed] the
    number of calls that raised. *)
Theorem enhance_batch_counts (image_urls : list HttpUrl) scale w :
  (length image_urls ≤ 10)%nat →
  scale ∈ [2; 4; 8]%Z →
  let os := outcomes (backend w) (batch_inputs image_urls scale) in
  ∃ body,
    (enhance_batch image_urls scale w).1 = inl body ∧
    dict_get "total_processed" body
      = Some (VInt (Z.of_nat (length (List.filter returned os)))) ∧
    dict_get "total_failed" body
      = Some (VInt (Z.of_nat (length (List.filter (λ o, negb (returned o)) os)))).
Proof.
  intros Hlen Hscale os. eexists. split; [by rewrite enhance_batch_run|].
  fold os.
  change (dict_get "total_processed" (batch_response ?rs ?es ?s)) with (Some (VInt (len rs))).
  change (dict_get "total_failed" (batch_response ?rs ?es ?s)) with (Some (VInt (len es))).
  unfold len.
  by rewrite successes_length, failures_length by apply batch_outcomes_length.
Qed.

Lemma outcomes_app (d : D) inputs1 inputs2 :
  outcomes d (inputs1 ++ inputs2)
    = outcomes d inputs1 ++ outcomes (backend_after d inputs1) inputs2.
Proof.
  revert d. induction inputs1 as [|input inputs1 IH]; intros d; [done|].
  simpl. destruct (run d MODEL_NAME input) as [outcome d']. simpl. by rewrite IH.
Qed.

Lemma successes_from_app i (urls1 urls2 : list HttpUrl) (os1 os2 : list (Output + exn)) :
  length os1 = length urls1 →
  successes_from i (urls1 ++ urls2) (os1 ++ os2)
    = successes_from i urls1 os1 ++ successes_from (i + length urls1) urls2 os2.
Proof.
  revert i os1. induction urls1 as [|u urls1 IH]; intros i os1 Hlen.
  - destruct os1; [|done]. simpl. by rewrite Nat.add_0_r.
  - destruct os1 as [|[output|e] os1]; [done| |]; injection Hlen as Hlen; simpl;
      rewrite IH by done; by replace (S i + length urls1)%nat with (i + S (length urls1))%nat by lia.
Qed.

Lemma failures_from_app i (urls1 urls2 : list HttpUrl) (os1 os2 : list (Output + exn)) :
  length os1 = length urls1 →
  failures_from i (urls1 ++ urls2) (os1 ++ os2)
    = failures_from i urls1 os1 ++ failures_from (i + length urls1) urls2 os2.
Proof.
  revert i os1. induction urls1 as [|u urls1 IH]; intros i os1 Hlen.
  - destruct os1; [|done]. simpl. by rewrite Nat.add_0_r.
  - destruct os1 as [|[output|e] os1]; [done| |]; injection Hlen as Hlen; simpl;
      rewrite IH by done; by replace (S i + length urls1)%nat with (i + S (length urls1))%nat by lia.
Qed.

(** X12.  URLs added at the end of a batch change nothing to what is
    reported for the URLs before them: when the longer batch is accepted,
    its [results] and [errors] begin with those of the shorter batch, run
    from the same world. *)
Theorem enhance_batch_extends (urls1 urls2 : list HttpUrl) scale w :
  (length (urls1 ++ urls2) ≤ 10)%nat →
  scale ∈ [2; 4; 8]%Z →
  ∃ results errors more_results more_errors,
    (enhance_batch urls1 scale w).1 = inl (batch_response results errors scale) ∧
    (enhance_batch (urls1 ++ urls2) scale w).1
      = inl (batch_response (results ++ more_results) (errors ++ more_errors) scale).
Proof.
  intros Hlen Hscale. rewrite length_app in Hlen.
  rewrite !enhance_batch_run by (done || rewrite ?length_app; lia).
  cbn [fst]. unfold batch_inputs. rewrite fmap_app, outcomes_app.
  rewrite successes_from_app, failures_from_app by apply batch_outcomes_length.
  by eexists _, _, _, _.
Qed.

(** X13.  A batch of one URL is the URL endpoint run on it: both make the
    same call to the model and end in the same world; when the URL
    endpoint returns, the batch has the one entry of [results] with the
    same two URLs, and when the URL endpoint fails on the model's error,
    the batch still returns, with the one entry of [errors] whose message
    is the detail of that failure without its prefix. *)
Theorem enhance_batch_singleton (image_url : HttpUrl) scale w :
  scale ∈ [2; 4; 8]%Z →
  let by_url := enhance_image_from_url (ImageEnhanceRequest.Build image_url (Some scale)) w in
  let by_batch := enhance_batch [image_url] scale w in
  by_batch.2 = by_url.2 ∧
  match by_url.1 with
  | inl response =>
      by_batch.1 =
        inl (batch_response
               [ VDict [ ("index", VInt 0);
                         ("original_url",
                          VStr (ImageEnhanceResponse.original_image_url response));
                         ("enhanced_url",
                          VStr (ImageEnhanceResponse.enhanced_image_url response));
                         ("status", VStr "success") ] ]
               [] scale)
  | inr e =>
      ∃ cause,
        e = HTTPException 500 ("Enhancement failed: " +:+ cause) ∧
        by_batch.1 =
          inl (batch_response []
                 [ VDict [ ("index", VInt 0);
                           ("original_url", VStr (str image_url));
                           ("error", VStr cause);
                           ("status", VStr "failed") ] ]
                 scale)
  end.
Proof.
  intros Hscale by_url by_batch. subst by_url by_batch.
  rewrite enhance_batch_run by (done || simpl; lia).
  destruct (enhance_image_from_url_cases (ImageEnhanceRequest.Build image_url (Some scale)) w)
    as [[Hout _]|(scale' & [= <-] & _ & ->)].
  - exfalso. apply Hout. cbn [ImageEnhanceRequest.scale].
    repeat (apply elem_of_cons in Hscale as [->|Hscale]; [by repeat constructor|]).
    by apply elem_of_nil in Hscale.
  - cbv zeta. cbn [ImageEnhanceRequest.image_url batch_inputs fmap list_fmap
                   outcomes backend_after fst snd].
    destruct (run (backend w) MODEL_NAME _) as [[output|e] d']; cbn [fst snd];
      (split; [done|]); [done|by eexists].
Qed.

(** X16.  The URL endpoint returns a response exactly when the scale of
    the request is 2, 4 or 8 and the model returns an output for the URL
    and that scale. *)
Theorem enhance_image_from_url_accepts_iff (request : ImageEnhanceRequest.t HttpUrl) w :
  (∃ response, (enhance_image_from_url request w).1 = inl response) ↔
  ∃ scale output,
    ImageEnhanceRequest.scale request = Some scale ∧
    scale ∈ [2; 4; 8]%Z ∧
    (run (backend w) MODEL_NAME
       {| image := ImageUrl (str (ImageEnhanceRequest.image_url request));
          scale := scale |}).1 = inl output.
Proof.
  destruct (enhance_image_from_url_cases request w)
    as [[Hout ->]|(scale & Hsome & Hscale & ->)]; cbv zeta; cbn [fst].
  - split; [by intros [? ?]|]. intros (scale & output & Hsome & Hscale & _).
    exfalso. apply Hout. rewrite Hsome.
    repeat (apply elem_of_cons in Hscale as [->|Hscale]; [by repeat constructor|]).
    by apply elem_of_nil in Hscale.
  - split.
    + intros [response Hresponse].
      destruct (run (backend w) MODEL_NAME _).1 as [output|e] eqn:Hrun; [|done].
      by exists scale, output.
    + intros (scale' & output & Hsome' & _ & Hrun).
      rewrite Hsome in Hsome'. injection Hsome' as <-. rewrite Hrun. eauto.
Qed.

End Coverage.

(** ** Further runs against the scripted model *)

Section CoverageRuns.
Import Stub.

Local Open Scope Z_scope.

Lemma handle_raises_only_http_witness :
  (handle (HttpUrl := string) (PostEnhanceFromFile cat_png 2)
     (world ∅ [inr (Exception "model error")])).1
    = inr (HTTPException 500 "Enhancement failed: model error") ∧
  ∃ status_code detail,
    HTTPException 500 "Enhancement failed: model error" = HTTPException status_code detail.
Proof.
  split; [reflexivity|].
  exact (handle_raises_only_http (D := script) (HttpUrl := string)
           (PostEnhanceFromFile cat_png 2) (world ∅ [inr (Exception "model error")])
           (HTTPException 500 "Enhancement failed: model error") eq_refl).
Defined.

Lemma enhance_image_from_url_fails_with_500_witness :
  (enhance_image_from_url (ImageEnhanceRequest.Build "https://x/img.png" None)
     (world ∅ [inl "https://cdn/out.png"])).1
    = inr (HTTPException 500 "Enhancement failed: 400: Scale must be 2, 4, or 8") ∧
  ∃ cause,
    HTTPException 500 "Enhancement failed: 400: Scale must be 2, 4, or 8"
      = HTTPException 500 ("Enhancement failed: " +:+ cause).
Proof.
  split; [reflexivity|].
  exact (enhance_image_from_url_fails_with_500 (D := script) (HttpUrl := string)
           (ImageEnhanceRequest.Build "https://x/img.png" None)
           (world ∅ [inl "https://cdn/out.png"])
           (HTTPException 500 "Enhancement failed: 400: Scale must be 2, 4, or 8") eq_refl).
Defined.

Lemma enhance_image_from_file_without_filename_witness :
  UploadFile.content_type unnamed_png = Some ("image/" +:+ "png") ∧
  8 ∈ [2; 4; 8] ∧
  UploadFile.filename unnamed_png = None ∧
  enhance_image_from_file unnamed_png 8 (world ∅ [inl "https://cdn/out.png"]) =
    (inr (HTTPException 500
            "Enhancement failed: expected str, bytes or os.PathLike object, not NoneType"),
     world ∅ [inl "https://cdn/out.png"]).
Proof.
  assert (Hscale : 8 ∈ [2; 4; 8]) by (apply (bool_decide_unpack _); exact I).
  split_and!; [reflexivity|exact Hscale|reflexivity|].
  exact (enhance_image_from_file_without_filename (D := script)
           unnamed_png 8 (world ∅ [inl "https://cdn/out.png"]) "png"
           eq_refl Hscale eq_refl).
Defined.

(** The first candidate name is taken: the file is made under the second,
    and the disk ends as it began. *)
Lemma enhance_image_from_file_restores_files_witness :
  (∀ filename path,
     UploadFile.filename cat_png = Some filename →
     temp_name (fs (world {[ "/tmp/tmp0.png" := [] ]} [inr (Exception "model error")]))
       (path_suffix filename) = inl path →
     fs (world {[ "/tmp/tmp0.png" := [] ]} [inr (Exception "model error")]) !! path = None ∧
     temp_write
       (<[path := []]> (fs (world {[ "/tmp/tmp0.png" := [] ]} [inr (Exception "model error")])))
       path (UploadFile.content cat_png) = None) ∧
  fs (enhance_image_from_file cat_png 2
        (world {[ "/tmp/tmp0.png" := [] ]} [inr (Exception "model error")])).2
    = fs (world {[ "/tmp/tmp0.png" := [] ]} [inr (Exception "model error")]).
Proof.
  assert (Hfree : ∀ filename path,
     UploadFile.filename cat_png = Some filename →
     temp_name (fs (world {[ "/tmp/tmp0.png" := [] ]} [inr (Exception "model error")]))
       (path_suffix filename) = inl path →
     fs (world {[ "/tmp/tmp0.png" := [] ]} [inr (Exception "model error")]) !! path = None ∧
     temp_write
       (<[path := []]> (fs (world {[ "/tmp/tmp0.png" := [] ]} [inr (Exception "model error")])))
       path (UploadFile.content cat_png) = None).
  { intros filename path [= <-] Hpath. vm_compute in Hpath.
    injection Hpath as <-. split; reflexivity. }
  split; [exact Hfree|].
  exact (enhance_image_from_file_restores_files (D := script) cat_png 2
           (world {[ "/tmp/tmp0.png" := [] ]} [inr (Exception "model error")]) Hfree).
Defined.

Lemma enhance_image_from_file_leaves_no_file_witness :
  (∀ filename path,
     UploadFile.filename cat_png = Some filename →
     temp_name (fs (world {[ "/tmp/tmp0.png" := [] ]} [inl "https://cdn/out.png"]))
       (path_suffix filename) = inl path →
     temp_write
       (<[path := []]> (fs (world {[ "/tmp/tmp0.png" := [] ]} [inl "https://cdn/out.png"])))
       path (UploadFile.content cat_png) = None) ∧
  fs (enhance_image_from_file cat_png 2
        (world {[ "/tmp/tmp0.png" := [] ]} [inl "https://cdn/out.png"])).2
    ⊆ fs (world {[ "/tmp/tmp0.png" := [] ]} [inl "https://cdn/out.png"]).
Proof.
  assert (Hwrite : ∀ filename path,
     UploadFile.filename cat_png = Some filename →
     temp_name (fs (world {[ "/tmp/tmp0.png" := [] ]} [inl "https://cdn/out.png"]))
       (path_suffix filename) = inl path →
     temp_write
       (<[path := []]> (fs (world {[ "/tmp/tmp0.png" := [] ]} [inl "https://cdn/out.png"])))
       path (UploadFile.content cat_png) = None)
    by (intros filename path _ _; reflexivity).
  split; [exact Hwrite|].
  exact (enhance_image_from_file_leaves_no_file (D := script) cat_png 2
           (world {[ "/tmp/tmp0.png" := [] ]} [inl "https://cdn/out.png"]) Hwrite).
Defined.

(** A file name ending in a null byte: [tempfile] refuses the suffix. *)
Lemma enhance_image_from_file_tempfile_refuses_witness :
  UploadFile.content_type null_png = Some ("image/" +:+ "png") ∧
  2 ∈ [2; 4; 8] ∧
  UploadFile.filename null_png = Some ("cat." +:+ String Ascii.zero "") ∧
  temp_name (fs (world ∅ [inl "https://cdn/out.png"]))
    (path_suffix ("cat." +:+ String Ascii.zero "")) = inr "embedded null byte" ∧
  enhance_image_from_file null_png 2 (world ∅ [inl "https://cdn/out.png"]) =
    (inr (HTTPException 500 "Enhancement failed: embedded null byte"),
     world ∅ [inl "https://cdn/out.png"]).
Proof.
  assert (Hscale : 2 ∈ [2; 4; 8]) by (apply (bool_decide_unpack _); exact I).
  assert (Hpath : temp_name (fs (world ∅ [inl "https://cdn/out.png"]))
                    (path_suffix ("cat." +:+ String Ascii.zero ""))
                  = inr "embedded null byte") by reflexivity.
  refine (conj eq_refl (conj Hscale (conj eq_refl (conj Hpath _)))).
  exact (enhance_image_from_file_tempfile_refuses (D := script)
           null_png 2 (world ∅ [inl "https://cdn/out.png"]) "png"
           ("cat." +:+ String Ascii.zero "") "embedded null byte"
           eq_refl Hscale eq_refl Hpath).
Defined.

Lemma serve_leaves_no_file_witness :
  (∀ (files : gmap string bytes) path content, temp_write files path content = None) ∧
  fs (serve (HttpUrl := string)
        [ PostEnhanceFromFile cat_png 2;
          PostEnhanceBatch ["https://x/a.png"; "https://x/b.png"] 8;
          PostEnhanceFromFile null_png 4;
          PostEnhanceFromFile cat_png 4 ]
        (world {[ "/tmp/tmp0.png" := [] ]}
           [inr (Exception "model error"); inl "https://cdn/a.png";
            inl "https://cdn/b.png"; inl "https://cdn/out.png"]))
    ⊆ fs (world {[ "/tmp/tmp0.png" := [] ]}
            [inr (Exception "model error"); inl "https://cdn/a.png";
             inl "https://cdn/b.png"; inl "https://cdn/out.png"]).
Proof.
  assert (Hwrite : ∀ (files : gmap string bytes) path content,
            temp_write files path content = None) by (intros; reflexivity).
  split; [exact Hwrite|].
  exact (serve_leaves_no_file (D := script) (HttpUrl := string)
           [ PostEnhanceFromFile cat_png 2;
             PostEnhanceBatch ["https://x/a.png"; "https://x/b.png"] 8;
             PostEnhanceFromFile null_png 4;
             PostEnhanceFromFile cat_png 4 ]
           (world {[ "/tmp/tmp0.png" := [] ]}
              [inr (Exception "model error"); inl "https://cdn/a.png";
               inl "https://cdn/b.png"; inl "https://cdn/out.png"]) Hwrite).
Defined.

Lemma enhance_batch_indices_partition_witness :
  (length three_urls ≤ 10)%nat ∧
  2 ∈ [2; 4; 8] ∧
  ∃ body,
    (enhance_batch three_urls 2
       (world ∅ [inl "https://cdn/a.png"; inr (Exception "model error");
                 inl "https://cdn/c.png"])).1 = inl body ∧
    omap item_index (list_at "results" body) ++ omap item_index (list_at "errors" body)
    ≡ₚ Z.of_nat <$> seq 0 (length three_urls).
Proof.
  assert (Hlen : (length three_urls ≤ 10)%nat) by (simpl; lia).
  assert (Hscale : 2 ∈ [2; 4; 8]) by (apply (bool_decide_unpack _); exact I).
  split_and!; [exact Hlen|exact Hscale|].
  exact (enhance_batch_indices_partition (D := script) three_urls 2
           (world ∅ [inl "https://cdn/a.png"; inr (Exception "model error");
                     inl "https://cdn/c.png"]) Hlen Hscale).
Defined.

Lemma enhance_batch_counts_witness :
  (length three_urls ≤ 10)%nat ∧
  2 ∈ [2; 4; 8] ∧
  ∃ body,
    (enhance_batch three_urls 2
       (world ∅ [inl "https://cdn/a.png"; inr (Exception "model error");
                 inl "https://cdn/c.png"])).1 = inl body ∧
    dict_get "total_processed" body = Some (VInt 2) ∧
    dict_get "total_failed" body = Some (VInt 1).
Proof.
  assert (Hlen : (length three_urls ≤ 10)%nat) by (simpl; lia).
  assert (Hscale : 2 ∈ [2; 4; 8]) by (apply (bool_decide_unpack _); exact I).
  split_and!; [exact Hlen|exact Hscale|].
  exact (enhance_batch_counts (D := script) three_urls 2
           (world ∅ [inl "https://cdn/a.png"; inr (Exception "model error");
                     inl "https://cdn/c.png"]) Hlen Hscale).
Defined.

Lemma enhance_batch_extends_witness :
  (length (["https://x/a.png"; "https://x/b.png"] ++ ["https://x/c.png"]) ≤ 10)%nat ∧
  2 ∈ [2; 4; 8] ∧
  ∃ results errors more_results more_errors,
    (enhance_batch ["https://x/a.png"; "https://x/b.png"] 2
       (world ∅ [inl "https://cdn/a.png"; inr (Exception "model error");
                 inl "https://cdn/c.png"])).1
      = inl (batch_response results errors 2) ∧
    (enhance_batch (["https://x/a.png"; "https://x/b.png"] ++ ["https://x/c.png"]) 2
       (world ∅ [inl "https://cdn/a.png"; inr (Exception "model error");
                 inl "https://cdn/c.png"])).1
      = inl (batch_response (results ++ more_results) (errors ++ more_errors) 2).
Proof.
  assert (Hlen : (length (["https://x/a.png"; "https://x/b.png"] ++ ["https://x/c.png"])
                  ≤ 10)%nat) by (simpl; lia).
  assert (Hscale : 2 ∈ [2; 4; 8]) by (apply (bool_decide_unpack _); exact I).
  split_and!; [exact Hlen|exact Hscale|].
  exact (enhance_batch_extends (D := script) (HttpUrl := string)
           ["https://x/a.png"; "https://x/b.png"] ["https://x/c.png"] 2
           (world ∅ [inl "https://cdn/a.png"; inr (Exception "model error");
                     inl "https://cdn/c.png"]) Hlen Hscale).
Defined.

Lemma enhance_batch_singleton_witness :
  4 ∈ [2; 4; 8] ∧
  (enhance_batch ["https://x/img.png"] 4 (world ∅ [inr (Exception "model error")])).2
    = (enhance_image_from_url (ImageEnhanceRequest.Build "https://x/img.png" (Some 4))
         (world ∅ [inr (Exception "model error")])).2 ∧
  ∃ cause,
    HTTPException 500 "Enhancement failed: model error"
      = HTTPException 500 ("Enhancement failed: " +:+ cause) ∧
    (enhance_batch ["https://x/img.png"] 4 (world ∅ [inr (Exception "model error")])).1
      = inl (batch_response []
               [ VDict [ ("index", VInt 0);
                         ("original_url", VStr "https://x/img.png");
                         ("error", VStr cause);
                         ("status", VStr "failed") ] ]
               4).
Proof.
  assert (Hscale : 4 ∈ [2; 4; 8]) by (apply (bool_decide_unpack _); exact I).
  split; [exact Hscale|].
  exact (enhance_batch_singleton (D := script) (HttpUrl := string)
           "https://x/img.png" 4 (world ∅ [inr (Exception "model error")]) Hscale).
Defined.

(** A sequence of requests of every kind, from a disk with one file. *)
Example serve_example :
  serve (HttpUrl := string)
        [ GetRoot;
          PostEnhanceFromFile cat_png 2;
          PostEnhanceFromUrl (ImageEnhanceRequest.Build "https://x/img.png" (Some 3));
          GetDownload "abc";
          PostEnhanceBatch ["https://x/a.png"; "https://x/b.png"] 8;
          PostEnhanceFromFile notes_txt 2;
          GetStatus "123";
          GetHealth ]
    (world {[ "/tmp/tmp0.png" := [] ]}
       [inr (Exception "model error"); inl "https://cdn/a.png"; inl "https://cdn/b.png"])
  = MkWorld {[ "/tmp/tmp0.png" := [] ]} []
      [ (MODEL_NAME, {| image := ImageFile (FileObject "/tmp/tmp1.png" png); scale := 2 |});
        (MODEL_NAME, {| image := ImageUrl "https://x/a.png"; scale := 8 |});
        (MODEL_NAME, {| image := ImageUrl "https://x/b.png"; scale := 8 |}) ].
Proof. by vm_compute. Qed.

End CoverageRuns.
